(** * ChatSystem-BoostAsio: message framing, chat room and session write queue

    A shallow embedding of [common.hpp] (struct [Message]) and of
    [src/server.cpp] ([ChatRoom], [ChatSession]), with the properties of the
    framing codec, of the bounded backlog, of the fan-out of the room, of
    the server-side message decoration and of the single-writer outbound
    queue.

    Conventions.
    - [char] is [ascii]; a [char] array and a [std::string] are [list ascii].
    - [size_t] values are [Z] in the range [0 .. 2^size_bits - 1]; the width
      [size_bits] is a parameter of the one function that depends on it
      ([decode_header], through the conversion of [atoi]'s [int] result).
      [int] is 32 bits wide.
    - A [chat_participant_ptr] is the address of the session object it points
      to, a [nat]; [std::set<chat_participant_ptr>] is a [gset nat] and the
      session objects live in a [gmap nat ChatSession].
    - [std::queue<Message>] is a [list Message], front of the queue first. *)

From Stdlib Require Import ZArith Ascii String List Lia.
From stdpp Require Import base list sorting gmap.

#[local] Open Scope Z_scope.

(* ===================================================================== *)
(** * common.hpp: struct Message                                          *)
(* ===================================================================== *)

Module Codec.

Definition HEADER_SIZE : Z := 4.
Definition MAX_BODY_SIZE : Z := 512.
Definition INT_BITS : Z := 32.

(** [char data[HEADER_SIZE + MAX_BODY_SIZE]; size_t body_length = 0;]
    The array has no initialiser: the content of a freshly declared
    [Message] is whatever the list holds. *)
Record Message : Type := mkMessage {
  data : list ascii;
  body_length : Z
}.

Definition NUL : ascii := Ascii.zero.
Definition SPACE : ascii := " "%char.
Definition MINUS : ascii := "-"%char.
Definition PLUS : ascii := "+"%char.

Definition code (c : ascii) : Z := Z.of_nat (nat_of_ascii c).

(** ** C library functions used by the codec *)

(** [isspace] in the "C" locale: space, and \t \n \v \f \r (9..13). *)
Definition isspace (c : ascii) : bool :=
  (code c =? 32) || ((9 <=? code c) && (code c <=? 13)).

Definition isdigit (c : ascii) : bool :=
  (48 <=? code c) && (code c <=? 57).

(** The C string held by a buffer: the characters before the first NUL. *)
Fixpoint c_str (buf : list ascii) : list ascii :=
  match buf with
  | [] => []
  | c :: rest => if Ascii.eqb c NUL then [] else c :: c_str rest
  end.

(** [strncat(dest, src, n)]: the string of [dest] followed by at most [n]
    characters of [src], stopping at a NUL of [src]. *)
Definition strncat (dest src : list ascii) (n : nat) : list ascii :=
  c_str dest ++ c_str (take n src).

(** [memcpy(dst, src, n)]: the first [n] bytes of [dst] are replaced by the
    first [n] bytes of [src]. *)
Definition memcpy (dst src : list ascii) (n : nat) : list ascii :=
  take n src ++ drop n dst.

(** [memcpy(dst + off, src, n)]. *)
Definition memcpy_at (dst : list ascii) (off : nat) (src : list ascii) (n : nat)
  : list ascii :=
  take off dst ++ memcpy (drop off dst) src n.

Fixpoint skip_spaces (s : list ascii) : list ascii :=
  match s with
  | [] => []
  | c :: rest => if isspace c then skip_spaces rest else s
  end.

(** The digit loop of [strtol] in base 10: [acc = acc * 10 + (c - '0')]
    while [c] is a digit. *)
Fixpoint parse_digits (acc : Z) (s : list ascii) : Z :=
  match s with
  | [] => acc
  | c :: rest =>
      if isdigit c then parse_digits (acc * 10 + (code c - 48)) rest else acc
  end.

(** [atoi]: optional white space, an optional sign, decimal digits; the
    value is 0 when no digit follows. The result is the mathematical value:
    on the strings the codec passes (at most [HEADER_SIZE] characters) it
    is within -999 .. 9999 and fits an [int] (lemma [atoi_header_range]). *)
Definition atoi (s : list ascii) : Z :=
  match skip_spaces s with
  | [] => 0
  | c :: rest =>
      if Ascii.eqb c MINUS then - parse_digits 0 rest
      else if Ascii.eqb c PLUS then parse_digits 0 rest
      else parse_digits 0 (c :: rest)
  end.

Definition digit_char (d : Z) : ascii := ascii_of_nat (Z.to_nat (48 + d)).

(** Decimal conversion of a non-negative number, as [printf] does it:
    [do { *--p = '0' + n % 10; n /= 10; } while (n != 0);]
    The fuel bounds the number of digits; an [int] has at most 10. *)
Fixpoint utoa (fuel : nat) (n : Z) (acc : list ascii) : list ascii :=
  match fuel with
  | O => acc
  | S fuel' =>
      let acc' := digit_char (n mod 10) :: acc in
      if n / 10 =? 0 then acc' else utoa fuel' (n / 10) acc'
  end.

Definition itoa (v : Z) : list ascii :=
  if v <? 0 then MINUS :: utoa 10 (- v) [] else utoa 10 v [].

(** The output of [sprintf(_, "%4d", v)], without the terminating NUL:
    the number, padded with spaces on the left to a minimum width of 4. *)
Definition format_4d (v : Z) : list ascii :=
  let s := itoa v in
  repeat SPACE (4 - length s)%nat ++ s.

(** [sprintf(buf, "%4d", v)]: the output and its NUL are written at the
    start of [buf]. Writing past the end of [buf] is undefined behaviour,
    [None]. *)
Definition sprintf_4d (buf : list ascii) (v : Z) : option (list ascii) :=
  let out := format_4d v ++ [NUL] in
  if (length out <=? length buf)%nat
  then Some (out ++ drop (length out) buf)
  else None.

(** [static_cast<int>(x)] for a [size_t] [x]: reduction modulo [2^32] into
    the signed range. *)
Definition static_cast_int (x : Z) : Z :=
  let r := x mod 2 ^ INT_BITS in
  if r <? 2 ^ (INT_BITS - 1) then r else r - 2 ^ INT_BITS.

(** Conversion of an [int] to [size_t]: reduction modulo [2^size_bits]. *)
Definition size_t_of_int (size_bits : Z) (v : Z) : Z := v mod 2 ^ size_bits.

(** ** Member functions of Message *)

(** [body()]: the array from offset [HEADER_SIZE] on. *)
Definition body (m : Message) : list ascii := drop (Z.to_nat HEADER_SIZE) (data m).

(** [length()] *)
Definition length_ (m : Message) : Z := HEADER_SIZE + body_length m.

(** The first [HEADER_SIZE] bytes of the array. *)
Definition header (m : Message) : list ascii := take (Z.to_nat HEADER_SIZE) (data m).

(** The body bytes: [std::string(m.body(), m.body_length)]. *)
Definition body_bytes (m : Message) : list ascii :=
  take (Z.to_nat (body_length m)) (body m).

(** The bytes put on the wire: [buffer(m.data, m.length())]. *)
Definition frame (m : Message) : list ascii :=
  take (Z.to_nat (length_ m)) (data m).

(** [[
    void encode_header() {
        char header[HEADER_SIZE + 1] = "";
        std::sprintf(header, "%4d", static_cast<int>(body_length));
        std::memcpy(data, header, HEADER_SIZE);
    }
    ]] *)
Definition encode_header (m : Message) : option Message :=
  let header0 := repeat NUL (Z.to_nat (HEADER_SIZE + 1)) in
  match sprintf_4d header0 (static_cast_int (body_length m)) with
  | None => None
  | Some header1 =>
      Some (mkMessage (memcpy (data m) header1 (Z.to_nat HEADER_SIZE))
                      (body_length m))
  end.

(** [[
    bool decode_header() {
        char header[HEADER_SIZE + 1] = "";
        std::strncat(header, data, HEADER_SIZE);
        body_length = std::atoi(header);
        return body_length <= MAX_BODY_SIZE;
    }
    ]]
    The result is the returned flag and the message afterwards. *)
Definition decode_header (size_bits : Z) (m : Message) : bool * Message :=
  let header0 := repeat NUL (Z.to_nat (HEADER_SIZE + 1)) in
  let header1 := strncat header0 (data m) (Z.to_nat HEADER_SIZE) in
  let body_length' := size_t_of_int size_bits (atoi header1) in
  (body_length' <=? MAX_BODY_SIZE, mkMessage (data m) body_length').

(** The sender-side construction of a frame, as in the client's input loop
    and in [ChatSession::do_read_body]:
    [[
    Message msg;
    msg.body_length = std::min(line.length(), static_cast<size_t>(Message::MAX_BODY_SIZE));
    std::memcpy(msg.body(), line.c_str(), msg.body_length);
    msg.encode_header();
    ]]
    [fresh] is the content of the uninitialised array of [msg]. *)
Definition make_message (fresh : list ascii) (line : list ascii) : option Message :=
  let n := Z.min (Z.of_nat (length line)) MAX_BODY_SIZE in
  let data1 := memcpy_at fresh (Z.to_nat HEADER_SIZE) line (Z.to_nat n) in
  encode_header (mkMessage data1 n).

End Codec.

Import Codec.

(* ===================================================================== *)
(** * src/server.cpp: ChatParticipant and ChatRoom                        *)
(* ===================================================================== *)

(** [[
    class ChatParticipant {
        virtual void deliver(const Message& msg) = 0;
    };
    ]]
    A class of participants is a type of object states with a [deliver]. *)
Class ChatParticipant (P : Type) : Type :=
  participant_deliver : Message -> P -> P.

Module ChatRoom.

Definition MAX_RECENT_MSGS : nat := 100.

(** [while (recent_messages_.size() > MAX_RECENT_MSGS) recent_messages_.pop();] *)
Fixpoint pop_while_over (q : list Message) : list Message :=
  match q with
  | [] => []
  | _ :: q' => if (MAX_RECENT_MSGS <? length q)%nat then pop_while_over q' else q
  end.

(** A [std::set] is walked in ascending order of its keys. *)
Definition in_order (ps : gset nat) : list nat := merge_sort Nat.le (elements ps).

Section Room.

Variable P : Type.
Context `{!ChatParticipant P}.

(** The members of the room, and [objects], the participant objects the
    pointers refer to. *)
Record t : Type := mk {
  participants_ : gset nat;
  recent_messages_ : list Message;
  objects : gmap nat P
}.

(** [participant->deliver(msg)]: the virtual call on the object at [p]. *)
Definition call_deliver (p : nat) (msg : Message) (h : gmap nat P) : gmap nat P :=
  alter (participant_deliver msg) p h.

(** [[
    void join(chat_participant_ptr participant) {
        std::lock_guard<std::mutex> lock(mutex_);
        participants_.insert(participant);
        for (const auto& msg : std::queue<Message>(recent_messages_)) {
            participant->deliver(msg);
        }
    }
    ]]
    The lock, the insert and the untouched members are the source's. The
    loop is not: [std::queue] has neither [begin()] nor [end()], so the
    range-based [for] over the copy is ill-formed and the source gives it
    no behaviour. The definition reads it the way its comment in the
    source announces it ("Send recent messages to new participant"), as
    a walk over the copy from its front. What is stated of the messages
    a joining session is handed holds for that reading only; what is
    stated of the set, of the backlog and of the other sessions does not
    depend on it. *)
Definition join (participant : nat) (r : t) : t :=
  mk ({[participant]} ∪ participants_ r)
     (recent_messages_ r)
     (foldl (fun h msg => call_deliver participant msg h)
            (objects r) (recent_messages_ r)).

(** [[
    void leave(chat_participant_ptr participant) {
        std::lock_guard<std::mutex> lock(mutex_);
        participants_.erase(participant);
    }
    ]] *)
Definition leave (participant : nat) (r : t) : t :=
  mk (participants_ r ∖ {[participant]}) (recent_messages_ r) (objects r).

(** [[
    void deliver(const Message& msg) {
        std::lock_guard<std::mutex> lock(mutex_);
        recent_messages_.push(msg);
        while (recent_messages_.size() > MAX_RECENT_MSGS) { recent_messages_.pop(); }
        for (auto participant : participants_) { participant->deliver(msg); }
    }
    ]] *)
Definition deliver (msg : Message) (r : t) : t :=
  mk (participants_ r)
     (pop_while_over (recent_messages_ r ++ [msg]))
     (foldl (fun h participant => call_deliver participant msg h)
            (objects r) (in_order (participants_ r))).

(** The room of a server that has just started, with the objects of [h]
    allocated. *)
Definition initial (h : gmap nat P) : t := mk ∅ [] h.

(** Replace the object at [p]. *)
Definition store (p : nat) (o : P) (r : t) : t :=
  mk (participants_ r) (recent_messages_ r) (<[p := o]> (objects r)).

End Room.

Arguments mk {P} _ _ _.
Arguments participants_ {P} _.
Arguments recent_messages_ {P} _.
Arguments objects {P} _.
Arguments call_deliver {P _} _ _ _.
Arguments join {P _} _ _.
Arguments leave {P} _ _.
Arguments deliver {P _} _ _.
Arguments initial {P} _.
Arguments store {P} _ _ _.

End ChatRoom.

(* ===================================================================== *)
(** * src/server.cpp: ChatSession                                         *)
(* ===================================================================== *)

Module ChatSession.

(** The read operation a session has outstanding on its socket. The source
    keeps it in the pending completion handler, not in a member. *)
Inductive pending_read : Type :=
| no_read                       (* no handler outstanding *)
| read_header                   (* [do_read_header]: HEADER_SIZE bytes into [read_msg_.data] *)
| read_body (n : Z).            (* [do_read_body]: [n] bytes into [read_msg_.body()] *)

(** The members of a session. [socket_writes] is the log of the socket:
    the messages whose buffer was handed to [async_write], in call order;
    [reading] the read outstanding on the socket. *)
Record t : Type := mk {
  read_msg_ : Message;
  write_msgs_ : list Message;
  writing_ : bool;
  socket_writes : list Message;
  reading : pending_read
}.

Definition set_read_msg (m : Message) (s : t) : t :=
  mk m (write_msgs_ s) (writing_ s) (socket_writes s) (reading s).

Definition set_writing (b : bool) (s : t) : t :=
  mk (read_msg_ s) (write_msgs_ s) b (socket_writes s) (reading s).

Definition set_reading (r : pending_read) (s : t) : t :=
  mk (read_msg_ s) (write_msgs_ s) (writing_ s) (socket_writes s) r.

(** [[
    void do_write() {
        Message msg;
        {
            std::lock_guard<std::mutex> lock(write_mutex_);
            if (write_msgs_.empty()) { writing_ = false; return; }
            msg = write_msgs_.front();
            write_msgs_.pop();
        }
        boost::asio::async_write(socket_, boost::asio::buffer(msg.data, msg.length()), handler);
    }
    ]]
    The part that runs before the write completes. *)
Definition do_write (s : t) : t :=
  match write_msgs_ s with
  | [] => set_writing false s
  | msg :: rest =>
      mk (read_msg_ s) rest (writing_ s) (socket_writes s ++ [msg]) (reading s)
  end.

(** [[
    void deliver(const Message& msg) override {
        bool write_in_progress = writing_.exchange(true);
        { std::lock_guard<std::mutex> lock(write_mutex_); write_msgs_.push(msg); }
        if (!write_in_progress) { do_write(); }
    }
    ]]
    One call, run from its first statement to its last with no other
    thread in between, as the room runs it under its own lock. The
    handlers of [do_write] do not take that lock: their statements can
    fall between those of a call, and then the flag and the split
    between socket and queue can come out differently (module
    [WriteSide] has the statements one by one). The push is at the back
    and the pop at the front under [write_mutex_] in every schedule, so
    [outbound] below is the same either way; room-level statements are
    made about [outbound] only. *)
Definition deliver (msg : Message) (s : t) : t :=
  let write_in_progress := writing_ s in
  let s1 := mk (read_msg_ s) (write_msgs_ s ++ [msg]) true (socket_writes s) (reading s) in
  if negb write_in_progress then do_write s1 else s1.

#[global] Instance participant : ChatParticipant t := deliver.

(** The messages the session has been handed for its peer, in order:
    those already passed to [async_write], then those still in the queue,
    from its front. A message in the queue reaches the socket only when a
    later [do_write] pops it. *)
Definition outbound (s : t) : list Message := socket_writes s ++ write_msgs_ s.

(** A session as the constructor leaves it; [rm] is the content of the
    uninitialised [read_msg_.data]. *)
Definition fresh (rm : list ascii) : t := mk (mkMessage rm 0) [] false [] no_read.

(** [do_read_header()]: a read of [HEADER_SIZE] bytes is started. *)
Definition do_read_header (s : t) : t := set_reading read_header s.

(** [do_read_body()]: a read of [read_msg_.body_length] bytes is started. *)
Definition do_read_body (s : t) : t :=
  set_reading (read_body (body_length (read_msg_ s))) s.

(** A member function [f] run on the session at [this]. *)
Definition on_this (this : nat) (f : t -> t) (r : ChatRoom.t t) : ChatRoom.t t :=
  ChatRoom.mk (ChatRoom.participants_ r) (ChatRoom.recent_messages_ r)
              (alter f this (ChatRoom.objects r)).

(** [start()]: [room_.join(shared_from_this()); do_read_header();] *)
Definition start (this : nat) (r : ChatRoom.t t) : ChatRoom.t t :=
  on_this this do_read_header (ChatRoom.join this r).

(** The completion handler of [do_read_header], on the session itself.
    [bytes] are the bytes the read stored at [read_msg_.data], [ec] tells
    whether it failed. The flag returned is the test
    [!ec && read_msg_.decode_header()]: [decode_header] runs only when the
    read succeeded. *)
Definition on_header (size_bits : Z) (ec : bool) (bytes : list ascii) (s : t)
  : bool * t :=
  let rm := read_msg_ s in
  let rm1 := mkMessage (memcpy (data rm) bytes (length bytes)) (body_length rm) in
  let s1 := set_reading no_read (set_read_msg rm1 s) in
  if ec then (false, s1)
  else
    let '(ok, rm2) := decode_header size_bits rm1 in
    let s2 := set_read_msg rm2 s1 in
    if ok then (true, do_read_body s2) else (false, s2).

(** [[
    [this, self](boost::system::error_code ec, std::size_t) {
        if (!ec && read_msg_.decode_header()) { do_read_body(); }
        else { room_.leave(shared_from_this()); }
    }
    ]] *)
Definition header_handler (size_bits : Z) (this : nat) (ec : bool)
    (bytes : list ascii) (r : ChatRoom.t t) : ChatRoom.t t :=
  match ChatRoom.objects r !! this with
  | None => r
  | Some s =>
      let '(ok, s') := on_header size_bits ec bytes s in
      let r' := ChatRoom.store this s' r in
      if ok then r' else ChatRoom.leave this r'
  end.

(** [timestamp.pop_back()]; on an empty string the call is undefined. *)
Definition pop_back (s : list ascii) : option (list ascii) :=
  match s with
  | [] => None
  | _ => Some (removelast s)
  end.

Definition OPEN_BRACKET : list ascii := list_ascii_of_string "[".
Definition CLIENT_TAG : list ascii := list_ascii_of_string "] Client: ".

(** The message built by the handler of [do_read_body]:
    [[
    std::string timestamp = std::ctime(&now);
    timestamp.pop_back(); // Remove newline
    std::string formatted_msg = "[" + timestamp + "] Client: " +
                                std::string(read_msg_.body(), read_msg_.body_length);
    Message response;
    response.body_length = std::min(formatted_msg.size(), static_cast<size_t>(Message::MAX_BODY_SIZE));
    std::memcpy(response.body(), formatted_msg.c_str(), response.body_length);
    response.encode_header();
    ]]
    [ctime_now] is the string [std::ctime] returned, [fresh] the content of
    the uninitialised array of [response]. *)
Definition formatted_msg (timestamp : list ascii) (rm : Message) : list ascii :=
  OPEN_BRACKET ++ timestamp ++ CLIENT_TAG ++ body_bytes rm.

Definition make_response (ctime_now fresh : list ascii) (rm : Message)
  : option Message :=
  match pop_back ctime_now with
  | None => None
  | Some timestamp => make_message fresh (formatted_msg timestamp rm)
  end.

(** [[
    [this, self](boost::system::error_code ec, std::size_t) {
        if (!ec) { ...; room_.deliver(response); do_read_header(); }
        else { room_.leave(shared_from_this()); }
    }
    ]]
    [bytes] are the bytes the read stored at [read_msg_.body()]. [None]
    when the handler runs into undefined behaviour. *)
Definition body_handler (this : nat) (ec : bool) (bytes : list ascii)
    (ctime_now fresh : list ascii) (r : ChatRoom.t t) : option (ChatRoom.t t) :=
  match ChatRoom.objects r !! this with
  | None => Some r
  | Some s =>
      let rm := read_msg_ s in
      let rm1 := mkMessage (memcpy_at (data rm) (Z.to_nat HEADER_SIZE) bytes (length bytes))
                           (body_length rm) in
      let r1 := ChatRoom.store this (set_reading no_read (set_read_msg rm1 s)) r in
      if ec then Some (ChatRoom.leave this r1)
      else
        match make_response ctime_now fresh rm1 with
        | None => None
        | Some response =>
            Some (on_this this do_read_header (ChatRoom.deliver response r1))
        end
  end.

(** The completion handler of [do_write]:
    [[
    [this, self](boost::system::error_code ec, std::size_t) {
        if (!ec) { do_write(); }
        else { room_.leave(shared_from_this()); writing_ = false; }
    }
    ]] *)
Definition write_handler (this : nat) (ec : bool) (r : ChatRoom.t t) : ChatRoom.t t :=
  if ec
  then on_this this (set_writing false) (ChatRoom.leave this r)
  else on_this this do_write r.

End ChatSession.

(* ===================================================================== *)
(** * Runs of the server                                                  *)
(* ===================================================================== *)

Module Server.

(** What happens to the room: calls of its three methods, and completions
    of a session's write. *)
Inductive action : Type :=
| Join (p : nat)
| Leave (p : nat)
| Deliver (msg : Message)
| WriteDone (p : nat) (ec : bool).

Definition apply (a : action) (r : ChatRoom.t ChatSession.t) : ChatRoom.t ChatSession.t :=
  match a with
  | Join p => ChatRoom.join p r
  | Leave p => ChatRoom.leave p r
  | Deliver msg => ChatRoom.deliver msg r
  | WriteDone p ec => ChatSession.write_handler p ec r
  end.

Definition run (acts : list action) (r : ChatRoom.t ChatSession.t)
  : ChatRoom.t ChatSession.t :=
  foldl (fun r a => apply a r) r acts.

(** The messages of the [deliver] calls of a run, in call order. *)
Fixpoint delivered (acts : list action) : list Message :=
  match acts with
  | [] => []
  | Deliver msg :: rest => msg :: delivered rest
  | _ :: rest => delivered rest
  end.

(** Whether an action takes [p] out of the room or joins it again. *)
Definition concerns (p : nat) (a : action) : bool :=
  match a with
  | Join q => bool_decide (q = p)
  | Leave q => bool_decide (q = p)
  | Deliver _ => false
  | WriteDone q ec => bool_decide (q = p) && ec
  end.

End Server.

(* ===================================================================== *)
(** * The write side of one session under interleaving                    *)
(* ===================================================================== *)

(** [ChatSession::deliver] is called by every thread that runs
    [ChatRoom::join] or [ChatRoom::deliver], and the completion handler of
    [do_write] by any thread of the [io_context]. Here each statement of
    [deliver], [do_write] and the handler is one step of a thread, and a
    scheduler interleaves the threads. [writing_] is a [std::atomic<bool>]
    and [write_msgs_] is touched only under [write_mutex_], so the
    interleavings of these steps are the executions of the code. *)
Module WriteSide.

(** The members the threads share, and [in_flight]: the [async_write]
    operations that were started and whose handler has not run yet. *)
Record shared : Type := mkShared {
  writing_ : bool;
  write_msgs_ : list Message;
  write_mutex_ : bool;            (* locked *)
  in_flight : list Message
}.

(** Where a thread stands; the numbers are the lines of src/server.cpp. *)
Inductive pc : Type :=
| deliver_exchange (msg : Message)                          (* 71 *)
| deliver_lock (msg : Message) (write_in_progress : bool)   (* 74 *)
| deliver_push (msg : Message) (write_in_progress : bool)   (* 75 *)
| deliver_unlock (write_in_progress : bool)                 (* 76 *)
| deliver_test (write_in_progress : bool)                   (* 78 *)
| do_write_lock                                             (* 128 *)
| do_write_empty                                            (* 129 *)
| do_write_clear                                            (* 130 *)
| do_write_return                                           (* 131 *)
| do_write_front                                            (* 133 *)
| do_write_pop (msg : Message)                              (* 134 *)
| do_write_unlock (msg : Message)                           (* 135 *)
| do_write_async (msg : Message)                            (* 138 *)
| handler_test (ec : bool)                                  (* 141 *)
| handler_leave                                             (* 144 *)
| handler_clear                                             (* 145 *)
| returned.

Definition lock (sh : shared) : option shared :=
  if write_mutex_ sh then None
  else Some (mkShared (writing_ sh) (write_msgs_ sh) true (in_flight sh)).

Definition unlock (sh : shared) : shared :=
  mkShared (writing_ sh) (write_msgs_ sh) false (in_flight sh).

Definition set_writing (b : bool) (sh : shared) : shared :=
  mkShared b (write_msgs_ sh) (write_mutex_ sh) (in_flight sh).

Definition set_queue (q : list Message) (sh : shared) : shared :=
  mkShared (writing_ sh) q (write_mutex_ sh) (in_flight sh).

(** One step of a thread: the shared members and the thread's next
    position; [None] when the thread cannot move (it waits for the mutex,
    or has returned). *)
Definition exec (at_ : pc) (sh : shared) : option (shared * pc) :=
  match at_ with
  | deliver_exchange msg =>
      (* bool write_in_progress = writing_.exchange(true); *)
      Some (set_writing true sh, deliver_lock msg (writing_ sh))
  | deliver_lock msg wip =>
      (* std::lock_guard<std::mutex> lock(write_mutex_); *)
      match lock sh with
      | None => None
      | Some sh' => Some (sh', deliver_push msg wip)
      end
  | deliver_push msg wip =>
      (* write_msgs_.push(msg); *)
      Some (set_queue (write_msgs_ sh ++ [msg]) sh, deliver_unlock wip)
  | deliver_unlock wip =>
      Some (unlock sh, deliver_test wip)
  | deliver_test wip =>
      (* if (!write_in_progress) do_write(); *)
      Some (sh, if negb wip then do_write_lock else returned)
  | do_write_lock =>
      match lock sh with
      | None => None
      | Some sh' => Some (sh', do_write_empty)
      end
  | do_write_empty =>
      (* if (write_msgs_.empty()) *)
      Some (sh, match write_msgs_ sh with [] => do_write_clear | _ => do_write_front end)
  | do_write_clear =>
      (* writing_ = false; *)
      Some (set_writing false sh, do_write_return)
  | do_write_return =>
      (* return; the lock_guard releases the mutex *)
      Some (unlock sh, returned)
  | do_write_front =>
      (* msg = write_msgs_.front(); *)
      match write_msgs_ sh with
      | [] => None
      | msg :: _ => Some (sh, do_write_pop msg)
      end
  | do_write_pop msg =>
      (* write_msgs_.pop(); *)
      Some (set_queue (tail (write_msgs_ sh)) sh, do_write_unlock msg)
  | do_write_unlock msg =>
      Some (unlock sh, do_write_async msg)
  | do_write_async msg =>
      (* boost::asio::async_write(socket_, buffer(msg.data, msg.length()), handler); *)
      Some (mkShared (writing_ sh) (write_msgs_ sh) (write_mutex_ sh) (in_flight sh ++ [msg]),
            returned)
  | handler_test ec =>
      (* if (!ec) do_write(); else ... *)
      Some (sh, if negb ec then do_write_lock else handler_leave)
  | handler_leave =>
      (* room_.leave(shared_from_this()); *)
      Some (sh, handler_clear)
  | handler_clear =>
      (* writing_ = false; *)
      Some (set_writing false sh, returned)
  | returned => None
  end.

(** The moves of the scheduler. *)
Inductive move : Type :=
| Call (msg : Message)            (* a thread enters [deliver(msg)] *)
| Step (i : nat)                  (* thread [i] executes its next statement *)
| Complete (k : nat) (ec : bool). (* the write [k] in flight ends; a thread runs its handler *)

Record config : Type := mkConfig {
  members : shared;
  threads : list pc
}.

Definition sched (c : config) (mv : move) : config :=
  match mv with
  | Call msg => mkConfig (members c) (threads c ++ [deliver_exchange msg])
  | Step i =>
      match threads c !! i with
      | None => c
      | Some at_ =>
          match exec at_ (members c) with
          | None => c
          | Some (sh', at') => mkConfig sh' (<[i := at']> (threads c))
          end
      end
  | Complete k ec =>
      let sh := members c in
      match in_flight sh !! k with
      | None => c
      | Some _ =>
          mkConfig (mkShared (writing_ sh) (write_msgs_ sh) (write_mutex_ sh)
                             (delete k (in_flight sh)))
                   (threads c ++ [handler_test ec])
      end
  end.

(** A session after its constructor: [writing_{false}], an empty queue. *)
Definition initial : config := mkConfig (mkShared false [] false []) [].

Definition run (mvs : list move) : config := foldl sched initial mvs.

(** A thread that may start a write: it obtained [false] from the
    exchange, or it runs [do_write] or the handler. *)
Definition may_write (at_ : pc) : nat :=
  match at_ with
  | deliver_exchange _ => 0
  | deliver_lock _ wip | deliver_push _ wip | deliver_unlock wip | deliver_test wip =>
      if wip then 0 else 1
  | do_write_lock | do_write_empty | do_write_clear | do_write_front
  | do_write_pop _ | do_write_unlock _ | do_write_async _
  | handler_test _ | handler_leave | handler_clear => 1
  | do_write_return | returned => 0
  end.

Definition writers (c : config) : nat := sum_list_with may_write (threads c).

(** The flag [writing_] is the token of the one party that may start a
    write: a thread that may write, or a write in flight. *)
Definition token_held (c : config) : Prop :=
  (writers c + length (in_flight (members c)))%nat
  = Nat.b2n (writing_ (members c)).

(** The schedule in which one thread calls [deliver] on the new session
    and runs up to its [async_write]. *)
Definition first_delivery (msg : Message) : list move :=
  Call msg :: replicate 10 (Step 0).

End WriteSide.

(* ===================================================================== *)
(** * Vocabulary of the statements                                        *)
(* ===================================================================== *)

(** The number a string of decimal digits denotes. *)
Definition decimal_value (ds : list ascii) : Z :=
  fold_left (fun a c => a * 10 + (code c - 48)) ds 0.

(** A decimal numeral without sign: one digit at least and no other
    character, and no leading zero except for the numeral of zero. *)
Definition canonical_numeral (ds : list ascii) : Prop :=
  ds <> [] /\ Forall (fun c => isdigit c = true) ds /\
  (hd NUL ds = "0"%char -> ds = ["0"%char]).

(** The value [atoi] is given by [decode_header]: the string [strncat]
    leaves in the local [header]. *)
Definition header_string (m : Message) : list ascii :=
  strncat (repeat NUL (Z.to_nat (HEADER_SIZE + 1))) (data m) (Z.to_nat HEADER_SIZE).

(** A header that is the decimal representation of an integer: white
    space or zeros for padding, an optional sign, then digits only, one
    at least. Everything else is garbage. *)
Definition is_numeral (s : list ascii) : bool :=
  match skip_spaces s with
  | [] => false
  | c :: rest =>
      if Ascii.eqb c MINUS || Ascii.eqb c PLUS
      then negb (Nat.eqb (length rest) 0) && forallb isdigit rest
      else forallb isdigit (c :: rest)
  end.

(** A string in which [atoi] finds no digit to convert. *)
Definition no_digits (s : list ascii) : bool :=
  match skip_spaces s with
  | [] => true
  | c :: rest =>
      if Ascii.eqb c MINUS || Ascii.eqb c PLUS
      then match rest with [] => true | d :: _ => negb (isdigit d) end
      else negb (isdigit c)
  end.

(** The size of the array [data]. *)
Definition DATA_SIZE : nat := Z.to_nat (HEADER_SIZE + MAX_BODY_SIZE).

(** The last [n] elements of a list, in the order of the list. *)
Definition last_n {A} (n : nat) (l : list A) : list A := drop (length l - n) l.

(** ** Concrete inputs *)

Definition chars (s : string) : list ascii := list_ascii_of_string s.

(** An array as a constructor leaves it, here filled with ['?']. *)
Definition junk : list ascii := repeat "?"%char DATA_SIZE.

(** A message whose array starts with [hdr], with a stale [body_length]. *)
Definition received (hdr : string) : Message :=
  mkMessage (chars hdr ++ drop (length (chars hdr)) junk) 7.

(** [n] messages, told apart by their one body byte. *)
Definition sample_msgs (n : nat) : list Message :=
  (fun i => mkMessage (chars "   1" ++ [ascii_of_nat i]) 1) <$> seq 0 n.

(** A heap with fresh sessions at the addresses 3 and 5. *)
Definition two_sessions : gmap nat ChatSession.t :=
  <[5%nat := ChatSession.fresh junk]> (<[3%nat := ChatSession.fresh junk]> ∅).

(** A room in which the session at 5 is the one participant and waits
    for a body of five bytes. *)
Definition awaiting_body : ChatSession.t :=
  ChatSession.mk (mkMessage (chars "   5" ++ drop 4 junk) 5) [] false []
                 (ChatSession.read_body 5).

Definition room_awaiting_body : ChatRoom.t ChatSession.t :=
  ChatRoom.mk {[5%nat]} [] (<[5%nat := awaiting_body]> two_sessions).

(* ===================================================================== *)
(** * src/unnamed/part_000: ChatClient and the input loop of main        *)
(* ===================================================================== *)

Module ChatClient.

Definition NL : ascii := "010"%char.

(** The members of the client. [socket_writes] and [reading] are as for a
    session; [socket_closed] tells that [socket_.close()] was called,
    [close_posted] that [close()] posted it; [cout] and [cerr] are what
    the client wrote to the two streams. *)
Record t : Type := mk {
  read_msg_ : Message;
  write_msgs_ : list Message;
  connected_ : bool;
  writing_ : bool;
  socket_writes : list Message;
  socket_closed : bool;
  close_posted : bool;
  reading : ChatSession.pending_read;
  cout : list ascii;
  cerr : list ascii
}.

Definition set_read (m : Message) (rd : ChatSession.pending_read) (c : t) : t :=
  mk m (write_msgs_ c) (connected_ c) (writing_ c) (socket_writes c)
     (socket_closed c) (close_posted c) rd (cout c) (cerr c).

Definition set_writing (b : bool) (c : t) : t :=
  mk (read_msg_ c) (write_msgs_ c) (connected_ c) b (socket_writes c)
     (socket_closed c) (close_posted c) (reading c) (cout c) (cerr c).

(** [std::cout << text << std::endl;] *)
Definition print (text : list ascii) (c : t) : t :=
  mk (read_msg_ c) (write_msgs_ c) (connected_ c) (writing_ c) (socket_writes c)
     (socket_closed c) (close_posted c) (reading c) (cout c ++ text ++ [NL]) (cerr c).

(** [std::cerr << text << std::endl;] *)
Definition complain (text : list ascii) (c : t) : t :=
  mk (read_msg_ c) (write_msgs_ c) (connected_ c) (writing_ c) (socket_writes c)
     (socket_closed c) (close_posted c) (reading c) (cout c) (cerr c ++ text ++ [NL]).

(** [connected_ = false; socket_.close();] *)
Definition disconnect (c : t) : t :=
  mk (read_msg_ c) (write_msgs_ c) false (writing_ c) (socket_writes c)
     true (close_posted c) (reading c) (cout c) (cerr c).

(** A client as its constructor leaves it. *)
Definition fresh (rm : list ascii) : t :=
  mk (mkMessage rm 0) [] false false [] false false ChatSession.no_read [] [].

(** [is_connected()] *)
Definition is_connected (c : t) : bool := connected_ c.

(** [do_read_header()] and [do_read_body()]: the read that is started. *)
Definition do_read_header (c : t) : t :=
  set_read (read_msg_ c) ChatSession.read_header c.

Definition do_read_body (c : t) : t :=
  set_read (read_msg_ c) (ChatSession.read_body (body_length (read_msg_ c))) c.

(** The handler of [async_connect]; [ec] is [None] on success and holds
    [ec.message()] otherwise.
    [[
    if (!ec) {
        connected_ = true;
        std::cout << "\n=== Connected to Chat Server ===" << std::endl;
        std::cout << "Type your messages and press Enter. Type 'quit' to exit." << std::endl;
        std::cout << "=================================" << std::endl;
        do_read_header();
    } else {
        std::cerr << "Connection failed: " << ec.message() << std::endl;
    }
    ]] *)
Definition connect_handler (ec : option (list ascii)) (c : t) : t :=
  match ec with
  | None =>
      let c1 := mk (read_msg_ c) (write_msgs_ c) true (writing_ c) (socket_writes c)
                   (socket_closed c) (close_posted c) (reading c) (cout c) (cerr c) in
      do_read_header
        (print (list_ascii_of_string "=================================")
           (print (list_ascii_of_string
                     "Type your messages and press Enter. Type 'quit' to exit.")
              (print (NL :: list_ascii_of_string "=== Connected to Chat Server ===") c1)))
  | Some message =>
      complain (list_ascii_of_string "Connection failed: " ++ message) c
  end.

(** [do_write()], up to the start of the write. *)
Definition do_write (c : t) : t :=
  match write_msgs_ c with
  | [] => set_writing false c
  | msg :: rest =>
      mk (read_msg_ c) rest (connected_ c) (writing_ c) (socket_writes c ++ [msg])
         (socket_closed c) (close_posted c) (reading c) (cout c) (cerr c)
  end.

(** [[
    void write(const Message& msg) {
        if (!connected_) {
            std::cerr << "Not connected to server!" << std::endl;
            return;
        }
        bool write_in_progress = writing_.exchange(true);
        { std::lock_guard<std::mutex> lock(write_mutex_); write_msgs_.push(msg); }
        if (!write_in_progress) { do_write(); }
    }
    ]] *)
Definition write (msg : Message) (c : t) : t :=
  if negb (connected_ c)
  then complain (list_ascii_of_string "Not connected to server!") c
  else
    let write_in_progress := writing_ c in
    let c1 := mk (read_msg_ c) (write_msgs_ c ++ [msg]) (connected_ c) true
                 (socket_writes c) (socket_closed c) (close_posted c) (reading c)
                 (cout c) (cerr c) in
    if negb write_in_progress then do_write c1 else c1.

(** [[
    void close() {
        connected_ = false;
        boost::asio::post(io_context_, [this]() { socket_.close(); });
    }
    ]] *)
Definition close (c : t) : t :=
  mk (read_msg_ c) (write_msgs_ c) false (writing_ c) (socket_writes c)
     (socket_closed c) true (reading c) (cout c) (cerr c).

(** The handler of the read of a header:
    [[
    if (!ec && read_msg_.decode_header()) { do_read_body(); }
    else { connected_ = false; socket_.close(); }
    ]]
    [bytes] are the bytes the read stored at [read_msg_.data]. *)
Definition header_handler (size_bits : Z) (ec : bool) (bytes : list ascii) (c : t) : t :=
  let rm := read_msg_ c in
  let rm1 := mkMessage (memcpy (data rm) bytes (length bytes)) (body_length rm) in
  let c1 := set_read rm1 ChatSession.no_read c in
  if ec then disconnect c1
  else
    let '(ok, rm2) := decode_header size_bits rm1 in
    let c2 := set_read rm2 ChatSession.no_read c1 in
    if ok then do_read_body c2 else disconnect c2.

(** The handler of the read of a body:
    [[
    if (!ec) {
        std::cout << std::string(read_msg_.body(), read_msg_.body_length) << std::endl;
        do_read_header();
    } else { connected_ = false; socket_.close(); }
    ]] *)
Definition body_handler (ec : bool) (bytes : list ascii) (c : t) : t :=
  let rm := read_msg_ c in
  let rm1 := mkMessage (memcpy_at (data rm) (Z.to_nat HEADER_SIZE) bytes (length bytes))
                       (body_length rm) in
  let c1 := set_read rm1 ChatSession.no_read c in
  if ec then disconnect c1
  else do_read_header (print (body_bytes rm1) c1).

(** The handler of the write:
    [[
    if (!ec) { do_write(); }
    else { connected_ = false; socket_.close(); writing_ = false; }
    ]] *)
Definition write_handler (ec : bool) (c : t) : t :=
  if ec then set_writing false (disconnect c) else do_write c.

(** One turn of the input loop of [main], for a line [getline] returned;
    [fresh] is the content of the array of the [msg] declared in this
    turn. The flag tells whether the loop goes on.
    [[
    if (!client.is_connected()) {
        std::cout << "Disconnected from server. Exiting..." << std::endl;
        break;
    }
    if (line == "quit" || line == "exit") { break; }
    if (line.empty()) continue;
    Message msg;
    msg.body_length = std::min(line.length(), static_cast<size_t>(Message::MAX_BODY_SIZE));
    std::memcpy(msg.body(), line.c_str(), msg.body_length);
    msg.encode_header();
    client.write(msg);
    ]] *)
Definition input_line (line fresh : list ascii) (c : t) : option (bool * t) :=
  if negb (is_connected c)
  then Some (false, print (list_ascii_of_string "Disconnected from server. Exiting...") c)
  else if bool_decide (line = list_ascii_of_string "quit")
          || bool_decide (line = list_ascii_of_string "exit")
  then Some (false, c)
  else match line with
       | [] => Some (true, c)
       | _ =>
           match make_message fresh line with
           | None => None
           | Some msg => Some (true, write msg c)
           end
       end.

(** What happens while the loop runs: [getline] returns a line, or the
    thread of the [io_context] runs a handler. *)
Inductive event : Type :=
| Line (line fresh : list ascii)
| HeaderRead (ec : bool) (bytes : list ascii)
| BodyRead (ec : bool) (bytes : list ascii)
| Written (ec : bool).

(** The input loop of [main] with the handlers that run meanwhile, up to
    [client.close()]; the events end when [getline] fails. [None] when an
    [encode_header] overruns its buffer. *)
Fixpoint main_loop (size_bits : Z) (evs : list event) (c : t) : option t :=
  match evs with
  | [] => Some (close c)
  | Line line fresh :: rest =>
      match input_line line fresh c with
      | None => None
      | Some (true, c') => main_loop size_bits rest c'
      | Some (false, c') => Some (close c')
      end
  | HeaderRead ec bytes :: rest => main_loop size_bits rest (header_handler size_bits ec bytes c)
  | BodyRead ec bytes :: rest => main_loop size_bits rest (body_handler ec bytes c)
  | Written ec :: rest => main_loop size_bits rest (write_handler ec c)
  end.

(** The lines of a list of events. *)
Fixpoint lines_of (evs : list event) : list (list ascii) :=
  match evs with
  | [] => []
  | Line line _ :: rest => line :: lines_of rest
  | _ :: rest => lines_of rest
  end.

(** The messages the client has taken for the server, in order: those
    already passed to [async_write], then those still in the queue, from
    its front. A message in the queue reaches the socket only when a later
    [do_write] pops it. *)
Definition outbound (c : t) : list Message := socket_writes c ++ write_msgs_ c.

(** The two words that end the loop. *)
Definition says_quit (line : list ascii) : bool :=
  bool_decide (line = list_ascii_of_string "quit")
  || bool_decide (line = list_ascii_of_string "exit").

(** The bytes on the wire for a line of text: the length of its first 512
    bytes in a field of four, then those bytes. *)
Definition wire_frame (line : list ascii) : list ascii :=
  format_4d (Z.of_nat (length (take 512 line))) ++ take 512 line.

(** An event after which the loop goes on with the connection up: a line
    other than the two words, read into an array of [DATA_SIZE] bytes; a
    header of four bytes that [decode_header] accepts; a body or a write
    that completed without error. *)
Definition goes_on (size_bits : Z) (ev : event) : bool :=
  match ev with
  | Line line fresh => negb (says_quit line) && Nat.eqb (length fresh) DATA_SIZE
  | HeaderRead ec bytes =>
      negb ec && Nat.eqb (length bytes) 4 && fst (decode_header size_bits (mkMessage bytes 0))
  | BodyRead ec _ => negb ec
  | Written ec => negb ec
  end.

End ChatClient.

(* ===================================================================== *)
(** * The write side under interleaving: who holds what                   *)
(* ===================================================================== *)

Module WriteLog.

Import WriteSide.

(** A thread between the construction and the destruction of a
    [lock_guard] on [write_mutex_]. *)
Definition in_section (at_ : pc) : nat :=
  match at_ with
  | deliver_push _ _ | deliver_unlock _
  | do_write_empty | do_write_clear | do_write_return
  | do_write_front | do_write_pop _ | do_write_unlock _ => 1
  | _ => 0
  end.

(** What [front()] and [pop()] need of the queue [q] when a thread stands
    before them: a first element, and for [pop()] the one [front()] read. *)
Definition queue_ready (q : list Message) (at_ : pc) : Prop :=
  match at_ with
  | do_write_front => q <> []
  | do_write_pop msg => exists rest, q = msg :: rest
  | _ => True
  end.

(** The message a thread carries outside the queue: on its way in, up to
    the push, or on its way out, after the pop. *)
Definition carried (at_ : pc) : list Message :=
  match at_ with
  | deliver_exchange msg | deliver_lock msg _ | deliver_push msg _ => [msg]
  | do_write_unlock msg | do_write_async msg => [msg]
  | _ => []
  end.

(** The messages that were passed to [deliver] and whose write has not
    completed. *)
Definition pending (c : config) : list Message :=
  concat (carried <$> threads c) ++ write_msgs_ (members c) ++ in_flight (members c).

(** The messages of the calls of [deliver] in a schedule. *)
Fixpoint called (mvs : list move) : list Message :=
  match mvs with
  | [] => []
  | Call msg :: rest => msg :: called rest
  | _ :: rest => called rest
  end.

(** The scheduler, with the log of the writes that completed. *)
Definition sched_log (st : config * list Message) (mv : move) : config * list Message :=
  (sched (fst st) mv,
   match mv with
   | Complete k _ =>
       match in_flight (members (fst st)) !! k with
       | Some msg => snd st ++ [msg]
       | None => snd st
       end
   | _ => snd st
   end).

Definition completed (mvs : list move) : list Message :=
  snd (foldl sched_log (initial, []) mvs).

(** The schedule of two calls in which the second message is left in the
    queue: the second caller takes [true] from the exchange, then the
    handler of the first write runs [do_write] to its end, then the second
    caller pushes. *)
Definition stranding (m0 m1 : Message) : list move :=
  first_delivery m0 ++ [Step 0; Complete 0 false; Call m1; Step 2]
  ++ replicate 5 (Step 1) ++ replicate 4 (Step 2).

End WriteLog.

(* ===================================================================== *)
(** * Characters and numerals                                             *)
(* ===================================================================== *)

Ltac char_arith :=
  unfold isdigit, isspace in *;
  rewrite ?andb_true_iff, ?orb_true_iff, ?andb_false_iff, ?orb_false_iff,
    ?Z.leb_le, ?Z.leb_gt, ?Z.eqb_eq, ?Z.eqb_neq in *;
  lia.

Lemma code_digit_char d : 0 <= d <= 9 -> code (digit_char d) = 48 + d.
Proof.
  intros Hd. unfold code, digit_char.
  rewrite nat_ascii_embedding by lia. lia.
Qed.

Lemma isdigit_digit_char d : 0 <= d <= 9 -> isdigit (digit_char d) = true.
Proof. intros Hd. pose proof (code_digit_char d Hd). char_arith. Qed.

Lemma isdigit_not_space c : isdigit c = true -> isspace c = false.
Proof. intros H. char_arith. Qed.

Lemma isdigit_not_special c :
  isdigit c = true ->
  Ascii.eqb c MINUS = false /\ Ascii.eqb c PLUS = false /\ Ascii.eqb c NUL = false.
Proof.
  intros H. repeat split.
  all: match goal with |- Ascii.eqb ?x ?k = false =>
         destruct (Ascii.eqb_spec x k) as [->|]; [discriminate H | reflexivity] end.
Qed.

Lemma isspace_not_NUL c : isspace c = true -> Ascii.eqb c NUL = false.
Proof.
  intros H. destruct (Ascii.eqb_spec c NUL) as [->|]; [discriminate H | reflexivity].
Qed.

(** ** The digit loop of [atoi] *)

Lemma parse_digits_app ds rest a :
  Forall (fun c => isdigit c = true) ds ->
  parse_digits a (ds ++ rest)
  = parse_digits (fold_left (fun a c => a * 10 + (code c - 48)) ds a) rest.
Proof.
  intros Hds. revert a. induction Hds as [|c ds Hc _ IH]; intros a; simpl.
  - reflexivity.
  - rewrite Hc. apply IH.
Qed.

Lemma parse_digits_numeral ds :
  Forall (fun c => isdigit c = true) ds -> parse_digits 0 ds = decimal_value ds.
Proof.
  intros Hds. rewrite <- (app_nil_r ds) at 1.
  rewrite parse_digits_app by assumption. reflexivity.
Qed.

Lemma parse_digits_bound s a :
  0 <= a -> a <= parse_digits a s < (a + 1) * 10 ^ Z.of_nat (length s).
Proof.
  revert a. induction s as [|c s IH]; intros a Ha; simpl parse_digits.
  - simpl. lia.
  - rewrite length_cons, Nat2Z.inj_succ, Z.pow_succ_r by lia.
    assert (Hp : 0 < 10 ^ Z.of_nat (length s)) by (apply Z.pow_pos_nonneg; lia).
    destruct (isdigit c) eqn:Hc.
    + assert (Hd : 0 <= code c - 48 <= 9) by char_arith.
      specialize (IH (a * 10 + (code c - 48)) ltac:(lia)). nia.
    + nia.
Qed.

Lemma skip_spaces_length s : (length (skip_spaces s) <= length s)%nat.
Proof.
  induction s as [|c s IH]; simpl; [lia|].
  destruct (isspace c); simpl; lia.
Qed.

Lemma skip_spaces_pad pad s :
  Forall (fun c => isspace c = true) pad -> skip_spaces (pad ++ s) = skip_spaces s.
Proof.
  induction 1 as [|c pad Hc _ IH]; simpl; [reflexivity|]. now rewrite Hc.
Qed.

Lemma skip_spaces_digit c s : isdigit c = true -> skip_spaces (c :: s) = c :: s.
Proof. intros H. simpl. now rewrite (isdigit_not_space c H). Qed.

(** [atoi] on a padded unsigned numeral is the value of the numeral. *)
Lemma atoi_padded pad ds :
  Forall (fun c => isspace c = true) pad ->
  Forall (fun c => isdigit c = true) ds ->
  atoi (pad ++ ds) = decimal_value ds.
Proof.
  intros Hpad Hds. unfold atoi. rewrite skip_spaces_pad by assumption.
  destruct Hds as [|c ds Hc Hds]; [reflexivity|].
  rewrite skip_spaces_digit by assumption.
  destruct (isdigit_not_special c Hc) as (-> & -> & _).
  apply parse_digits_numeral. now constructor.
Qed.

(** On a string of at most four characters [atoi] stays far inside the
    range of [int]. *)
Lemma atoi_header_range s : (length s <= 4)%nat -> -999 <= atoi s <= 9999.
Proof.
  intros Hlen. unfold atoi.
  pose proof (skip_spaces_length s) as Hs.
  destruct (skip_spaces s) as [|c rest] eqn:E; [lia|].
  simpl in Hs.
  assert (H3 : 10 ^ Z.of_nat (length rest) <= 1000).
  { change 1000 with (10 ^ Z.of_nat 3). apply Z.pow_le_mono_r; lia. }
  assert (H4 : 10 ^ Z.of_nat (length (c :: rest)) <= 10000).
  { change 10000 with (10 ^ Z.of_nat 4). apply Z.pow_le_mono_r; simpl; lia. }
  pose proof (parse_digits_bound rest 0 ltac:(lia)).
  pose proof (parse_digits_bound (c :: rest) 0 ltac:(lia)).
  destruct (Ascii.eqb c MINUS); [lia|].
  destruct (Ascii.eqb c PLUS); lia.
Qed.

(** ** [c_str] and [strncat] *)

Lemma c_str_all s : Forall (fun c => Ascii.eqb c NUL = false) s -> c_str s = s.
Proof.
  induction 1 as [|c s Hc _ IH]; simpl; [reflexivity|]. rewrite Hc. now f_equal.
Qed.

Lemma c_str_length s : (length (c_str s) <= length s)%nat.
Proof.
  induction s as [|c s IH]; simpl; [lia|].
  destruct (Ascii.eqb c NUL); simpl; lia.
Qed.

Lemma header_string_eq m : header_string m = c_str (header m).
Proof. reflexivity. Qed.

Lemma header_string_length m : (length (header_string m) <= 4)%nat.
Proof.
  rewrite header_string_eq. pose proof (c_str_length (header m)) as H.
  unfold header in H |- *. rewrite length_take in H.
  change (Z.to_nat HEADER_SIZE) with 4%nat in *. lia.
Qed.

Lemma decode_header_eq size_bits m :
  decode_header size_bits m
  = (size_t_of_int size_bits (atoi (header_string m)) <=? MAX_BODY_SIZE,
     mkMessage (data m) (size_t_of_int size_bits (atoi (header_string m)))).
Proof. reflexivity. Qed.

(** ** The decimal conversion of [sprintf] *)

Lemma utoa_app fuel n acc : utoa fuel n acc = utoa fuel n [] ++ acc.
Proof.
  revert n acc. induction fuel as [|fuel IH]; intros n acc; simpl; [reflexivity|].
  destruct (n / 10 =? 0); [reflexivity|].
  rewrite IH, (IH _ [_]), <- app_assoc. reflexivity.
Qed.

Lemma utoa_step fuel n :
  utoa (S fuel) n []
  = if n / 10 =? 0 then [digit_char (n mod 10)]
    else utoa fuel (n / 10) [] ++ [digit_char (n mod 10)].
Proof. simpl. destruct (n / 10 =? 0); [reflexivity | apply utoa_app]. Qed.

Lemma utoa_digits fuel n :
  0 <= n -> Forall (fun c => isdigit c = true) (utoa fuel n []).
Proof.
  revert n. induction fuel as [|fuel IH]; intros n Hn; [constructor|].
  rewrite utoa_step.
  assert (Hd : isdigit (digit_char (n mod 10)) = true).
  { apply isdigit_digit_char. pose proof (Z.mod_pos_bound n 10). lia. }
  destruct (n / 10 =? 0).
  - repeat constructor. exact Hd.
  - apply Forall_app. split; [apply IH, Z.div_pos; lia | repeat constructor; exact Hd].
Qed.

Lemma utoa_value fuel n :
  0 <= n < 10 ^ Z.of_nat fuel -> decimal_value (utoa fuel n []) = n.
Proof.
  revert n. induction fuel as [|fuel IH]; intros n Hn.
  - simpl in *. unfold decimal_value. simpl. lia.
  - rewrite utoa_step. rewrite Nat2Z.inj_succ, Z.pow_succ_r in Hn by lia.
    pose proof (Z.mod_pos_bound n 10 ltac:(lia)) as Hm.
    pose proof (Z.div_mod n 10 ltac:(lia)) as Hdm.
    destruct (Z.eqb_spec (n / 10) 0) as [Hz|Hz].
    + unfold decimal_value. simpl. rewrite code_digit_char by lia. lia.
    + unfold decimal_value. rewrite fold_left_app. simpl.
      fold (decimal_value (utoa fuel (n / 10) [])).
      assert (Hq : 0 <= n / 10 < 10 ^ Z.of_nat fuel)
        by (split; [apply Z.div_pos; lia | apply Z.div_lt_upper_bound; lia]).
      rewrite (IH _ Hq), code_digit_char by lia. lia.
Qed.

Lemma utoa_length fuel n k :
  0 <= n < 10 ^ Z.of_nat (S k) -> (length (utoa fuel n []) <= S k)%nat.
Proof.
  revert n k. induction fuel as [|fuel IH]; intros n k Hn; [simpl; lia|].
  rewrite utoa_step.
  destruct (Z.eqb_spec (n / 10) 0) as [Hz|Hz]; [simpl; lia|].
  rewrite length_app. simpl.
  destruct k as [|k].
  - exfalso. apply Hz. apply Z.div_small. simpl in Hn. lia.
  - rewrite (Nat2Z.inj_succ (S k)), Z.pow_succ_r in Hn by lia.
    specialize (IH (n / 10) k).
    assert (0 <= n / 10 < 10 ^ Z.of_nat (S k))
      by (split; [apply Z.div_pos; lia | apply Z.div_lt_upper_bound; lia]).
    lia.
Qed.

Lemma utoa_leading fuel n :
  0 < n < 10 ^ Z.of_nat fuel ->
  exists d rest, utoa fuel n [] = digit_char d :: rest /\ 1 <= d <= 9.
Proof.
  revert n. induction fuel as [|fuel IH]; intros n Hn; [simpl in Hn; lia|].
  rewrite utoa_step. rewrite Nat2Z.inj_succ, Z.pow_succ_r in Hn by lia.
  pose proof (Z.mod_pos_bound n 10 ltac:(lia)) as Hm.
  pose proof (Z.div_mod n 10 ltac:(lia)) as Hdm.
  destruct (Z.eqb_spec (n / 10) 0) as [Hz|Hz].
  - exists (n mod 10), []. split; [reflexivity | lia].
  - destruct (IH (n / 10)) as (d & rest & E & Hd).
    { pose proof (Z.div_pos n 10). split; [lia | apply Z.div_lt_upper_bound; lia]. }
    exists d, (rest ++ [digit_char (n mod 10)]). rewrite E. split; [reflexivity | exact Hd].
Qed.

Lemma utoa_canonical n :
  0 <= n < 10 ^ 10 -> canonical_numeral (utoa 10 n []).
Proof.
  intros Hn. unfold canonical_numeral. repeat split.
  - rewrite utoa_step. destruct (n / 10 =? 0); [discriminate|].
    intros E. apply app_eq_nil in E. destruct E as [_ E]. discriminate E.
  - apply utoa_digits. lia.
  - destruct (Z.eq_dec n 0) as [->|Hnz]; [reflexivity|].
    destruct (utoa_leading 10 n) as (d & rest & E & Hd); [simpl; lia|].
    rewrite E. simpl. intros Hz. exfalso.
    pose proof (code_digit_char d ltac:(lia)) as Hc. rewrite Hz in Hc.
    change (code "0") with 48 in Hc. lia.
Qed.

Lemma itoa_nonneg n : 0 <= n -> itoa n = utoa 10 n [].
Proof. intros Hn. unfold itoa. destruct (Z.ltb_spec n 0); [lia | reflexivity]. Qed.

(** The shape of a ["%4d"] field for a number of at most four digits. *)
Lemma format_4d_shape n :
  0 <= n <= 9999 ->
  format_4d n = repeat SPACE (4 - length (utoa 10 n [])) ++ utoa 10 n []
  /\ length (format_4d n) = 4%nat.
Proof.
  intros Hn. unfold format_4d. rewrite itoa_nonneg by lia. split; [reflexivity|].
  pose proof (utoa_length 10 n 3 ltac:(simpl; lia)).
  rewrite length_app, repeat_length. lia.
Qed.

Lemma repeat_SPACE_isspace k : Forall (fun c => isspace c = true) (repeat SPACE k).
Proof. induction k; simpl; constructor; [reflexivity | assumption]. Qed.

Lemma atoi_format_4d n : 0 <= n <= 9999 -> atoi (format_4d n) = n.
Proof.
  intros Hn. destruct (format_4d_shape n Hn) as [-> _].
  rewrite atoi_padded by (try apply repeat_SPACE_isspace; apply utoa_digits; lia).
  apply utoa_value. simpl. lia.
Qed.

Lemma static_cast_int_small n : 0 <= n < 2 ^ 31 -> static_cast_int n = n.
Proof.
  intros Hn. unfold static_cast_int, INT_BITS.
  rewrite Z.mod_small by lia.
  destruct (Z.ltb_spec n (2 ^ (32 - 1))); [reflexivity | simpl in *; lia].
Qed.

(** ** [encode_header] *)

Lemma encode_header_ok m :
  0 <= body_length m <= 9999 ->
  encode_header m
  = Some (mkMessage (format_4d (body_length m) ++ drop 4 (data m)) (body_length m)).
Proof.
  intros Hn. unfold encode_header, sprintf_4d.
  rewrite static_cast_int_small by lia.
  destruct (format_4d_shape _ Hn) as [_ Hlen].
  rewrite length_app, Hlen. simpl length.
  change (Z.to_nat (HEADER_SIZE + 1)) with 5%nat. simpl (_ <=? _)%nat.
  change (Z.to_nat HEADER_SIZE) with 4%nat.
  unfold memcpy. rewrite <- app_assoc, take_app_length' by (symmetry; exact Hlen).
  reflexivity.
Qed.

(** Five digits do not fit the local [header]: [sprintf] overruns it. *)
Example encode_header_overrun d : encode_header (mkMessage d 10000) = None.
Proof. reflexivity. Qed.

(* ===================================================================== *)
(** * The framing codec                                                   *)
(* ===================================================================== *)

Section CodecFacts.

(** The width of [size_t]; the standard allows no less than 16 bits. *)
Variable size_bits : Z.
Hypothesis size_bits_min : 16 <= size_bits.

Lemma size_t_bound : 65536 <= 2 ^ size_bits.
Proof. change 65536 with (2 ^ 16). apply Z.pow_le_mono_r; lia. Qed.

Lemma size_t_of_int_small v : 0 <= v <= 9999 -> size_t_of_int size_bits v = v.
Proof.
  intros Hv. pose proof size_t_bound. unfold size_t_of_int.
  apply Z.mod_small. lia.
Qed.

Lemma size_t_of_int_negative v :
  -999 <= v < 0 -> size_t_of_int size_bits v = 2 ^ size_bits + v.
Proof.
  intros Hv. pose proof size_t_bound. unfold size_t_of_int.
  rewrite <- (Z.mod_add v 1 (2 ^ size_bits)) by lia.
  rewrite Z.mod_small by lia. lia.
Qed.

Lemma decimal_value_bound ds :
  Forall (fun c => isdigit c = true) ds -> (length ds <= 4)%nat ->
  0 <= decimal_value ds <= 9999.
Proof.
  intros Hds Hlen. rewrite <- parse_digits_numeral by assumption.
  pose proof (parse_digits_bound ds 0 ltac:(lia)) as Hb.
  assert (10 ^ Z.of_nat (length ds) <= 10000).
  { change 10000 with (10 ^ Z.of_nat 4). apply Z.pow_le_mono_r; lia. }
  lia.
Qed.

(** [decode_header] on a header made of padding and digits. *)
Lemma decode_header_padded m pad ds :
  header m = pad ++ ds ->
  Forall (fun c => isspace c = true) pad ->
  Forall (fun c => isdigit c = true) ds ->
  decode_header size_bits m
  = (decimal_value ds <=? MAX_BODY_SIZE, mkMessage (data m) (decimal_value ds)).
Proof.
  intros Hh Hpad Hds. rewrite decode_header_eq, header_string_eq, Hh.
  assert (Hlen : (length ds <= 4)%nat).
  { assert (Hl : length (header m) = length (pad ++ ds)) by now rewrite Hh.
    unfold header in Hl. rewrite length_take, length_app in Hl.
    change (Z.to_nat HEADER_SIZE) with 4%nat in Hl. lia. }
  rewrite c_str_all.
  - rewrite atoi_padded by assumption.
    rewrite size_t_of_int_small by (apply decimal_value_bound; assumption).
    reflexivity.
  - apply Forall_app. split.
    + eapply Forall_impl; [exact Hpad | apply isspace_not_NUL].
    + eapply Forall_impl; [exact Hds |]. intros c Hc. apply (isdigit_not_special c Hc).
Qed.

Lemma decode_header_format m n :
  0 <= n <= 9999 -> header m = format_4d n ->
  decode_header size_bits m = (n <=? MAX_BODY_SIZE, mkMessage (data m) n).
Proof.
  intros Hn Hh. destruct (format_4d_shape n Hn) as [E _]. rewrite E in Hh.
  rewrite (decode_header_padded m _ _ Hh)
    by (try apply repeat_SPACE_isspace; apply utoa_digits; lia).
  rewrite utoa_value by (simpl; lia). reflexivity.
Qed.

Lemma atoi_no_digits s : no_digits s = true -> atoi s = 0.
Proof.
  unfold no_digits, atoi. destruct (skip_spaces s) as [|c rest]; [reflexivity|].
  destruct (Ascii.eqb c MINUS); simpl.
  - destruct rest as [|d rest]; [reflexivity|]. simpl.
    intros H. apply negb_true_iff in H. now rewrite H.
  - destruct (Ascii.eqb c PLUS); simpl.
    + destruct rest as [|d rest]; [reflexivity|]. simpl.
      intros H. apply negb_true_iff in H. now rewrite H.
    + intros H. apply negb_true_iff in H. now rewrite H.
Qed.

(** ** The message a sender builds *)

Lemma make_message_eq fresh line :
  length fresh = DATA_SIZE -> (length line <= 512)%nat ->
  make_message fresh line
  = Some (mkMessage (format_4d (Z.of_nat (length line)) ++ line
                       ++ drop (4 + length line) fresh)
                    (Z.of_nat (length line))).
Proof.
  intros Hf Hl. change DATA_SIZE with 516%nat in Hf.
  unfold make_message, MAX_BODY_SIZE.
  rewrite Z.min_l by lia. rewrite encode_header_ok by (simpl; lia).
  simpl body_length. simpl data. rewrite Nat2Z.id.
  change (Z.to_nat HEADER_SIZE) with 4%nat.
  unfold memcpy_at, memcpy. rewrite (take_ge line) by lia.
  rewrite drop_app_length' by (rewrite length_take; lia).
  rewrite drop_drop. reflexivity.
Qed.

(** ** The claims on the codec *)

(** C8. For a body length in 0..512, [encode_header] succeeds and leaves a
    header of exactly four bytes: spaces, then the decimal numeral of the
    body length (digits only, no sign, no leading zero), flush right. The
    frame on the wire is this header followed at once by the body bytes. *)
Theorem encode_header_format (m : Message) :
  0 <= body_length m <= MAX_BODY_SIZE ->
  length (data m) = DATA_SIZE ->
  exists m' digits,
    encode_header m = Some m' /\
    length (header m') = 4%nat /\
    header m' = repeat SPACE (4 - length digits) ++ digits /\
    canonical_numeral digits /\
    decimal_value digits = body_length m /\
    body_length m' = body_length m /\
    frame m' = header m' ++ body_bytes m /\
    Z.of_nat (length (frame m')) = HEADER_SIZE + body_length m.
Proof.
  unfold MAX_BODY_SIZE. change DATA_SIZE with 516%nat. intros Hn Hd.
  destruct (format_4d_shape (body_length m) ltac:(lia)) as [Hshape Hlen].
  exists (mkMessage (format_4d (body_length m) ++ drop 4 (data m)) (body_length m)),
         (utoa 10 (body_length m) []).
  assert (Hh : header (mkMessage (format_4d (body_length m) ++ drop 4 (data m))
                                 (body_length m)) = format_4d (body_length m)).
  { unfold header. simpl data. apply take_app_length'. now rewrite Hlen. }
  assert (Hfr : frame (mkMessage (format_4d (body_length m) ++ drop 4 (data m))
                                 (body_length m))
                = format_4d (body_length m) ++ body_bytes m).
  { unfold frame, length_, body_bytes, body, HEADER_SIZE. simpl data. simpl body_length.
    rewrite Z2Nat.inj_add by lia. change (Z.to_nat 4) with 4%nat.
    now rewrite take_app_add' by (now rewrite Hlen). }
  rewrite Hh, Hfr. split; [apply encode_header_ok; lia|].
  split; [exact Hlen|]. split; [exact Hshape|].
  split; [apply utoa_canonical; simpl; lia|].
  split; [apply utoa_value; simpl; lia|].
  split; [reflexivity|]. split; [reflexivity|].
  rewrite length_app, Hlen. unfold body_bytes, body, HEADER_SIZE.
  rewrite length_take, length_drop. change (Z.to_nat 4) with 4%nat. lia.
Qed.

Lemma encode_header_format_witness :
  exists m' digits,
    encode_header (received "....hello") = Some m' /\
    length (header m') = 4%nat /\
    header m' = repeat SPACE (4 - length digits) ++ digits /\
    canonical_numeral digits /\
    decimal_value digits = 7 /\
    body_length m' = 7 /\
    frame m' = header m' ++ body_bytes (received "....hello") /\
    Z.of_nat (length (frame m')) = HEADER_SIZE + 7.
Proof.
  apply (encode_header_format (received "....hello")).
  - simpl. unfold MAX_BODY_SIZE. lia.
  - reflexivity.
Defined.

(** C1. Round trip. For a body of 0..512 bytes the frame a sender builds
    carries the body unchanged, and [decode_header], run by a receiver on
    the four header bytes of that frame, succeeds and sets [body_length]
    to the length of the body. *)
Theorem codec_roundtrip (fresh line : list ascii) (rx : Message) :
  length fresh = DATA_SIZE ->
  (length line <= 512)%nat ->
  exists m,
    make_message fresh line = Some m /\
    body_bytes m = line /\
    frame m = header m ++ line /\
    decode_header size_bits m = (true, m) /\
    (header rx = header m ->
     decode_header size_bits rx = (true, mkMessage (data rx) (Z.of_nat (length line)))).
Proof.
  intros Hf Hl. pose proof Hf as Hf'. change DATA_SIZE with 516%nat in Hf'.
  set (n := Z.of_nat (length line)).
  destruct (format_4d_shape n ltac:(lia)) as [_ Hlen].
  eexists. split; [apply make_message_eq; assumption|]. fold n.
  assert (Hh : header (mkMessage (format_4d n ++ line ++ drop (4 + length line) fresh) n)
               = format_4d n).
  { unfold header. simpl data. apply take_app_length'. now rewrite Hlen. }
  split; [|split; [|split]].
  - unfold body_bytes, body. simpl data. simpl body_length.
    change (Z.to_nat HEADER_SIZE) with 4%nat.
    rewrite drop_app_length' by (now rewrite Hlen).
    unfold n. rewrite Nat2Z.id. apply take_app_length.
  - rewrite Hh. unfold frame, length_, HEADER_SIZE. simpl data. simpl body_length.
    rewrite Z2Nat.inj_add by lia. change (Z.to_nat 4) with 4%nat.
    rewrite take_app_add' by (now rewrite Hlen).
    unfold n. rewrite Nat2Z.id. now rewrite take_app_length.
  - rewrite (decode_header_format _ n) by (try exact Hh; lia).
    unfold MAX_BODY_SIZE. destruct (Z.leb_spec n 512); [reflexivity | lia].
  - intros Hrx. rewrite Hh in Hrx.
    rewrite (decode_header_format _ n) by (try exact Hrx; lia).
    unfold MAX_BODY_SIZE. destruct (Z.leb_spec n 512); [reflexivity | lia].
Qed.

End CodecFacts.

Lemma codec_roundtrip_witness :
  exists m,
    make_message junk (chars "hello") = Some m /\
    body_bytes m = chars "hello" /\
    frame m = header m ++ chars "hello" /\
    decode_header 64 m = (true, m) /\
    (header (received "   5") = header m ->
     decode_header 64 (received "   5")
     = (true, mkMessage (data (received "   5")) (Z.of_nat (length (chars "hello"))))).
Proof.
  apply (codec_roundtrip 64 ltac:(lia) junk (chars "hello") (received "   5")).
  - reflexivity.
  - simpl. lia.
Defined.

Section DecodeClaims.

Variable size_bits : Z.
Hypothesis size_bits_min : 16 <= size_bits.

(** C5. Decode boundary. On a well-formed header (white space, then
    decimal digits to the end of the field) [decode_header] sets
    [body_length] to the declared number; it returns [true] when that is
    at most 512, so for 512 itself, and [false] for 513 and every larger
    number. *)
Theorem decode_header_boundary (m : Message) (pad ds : list ascii) :
  header m = pad ++ ds ->
  Forall (fun c => isspace c = true) pad ->
  Forall (fun c => isdigit c = true) ds ->
  ds <> [] ->
  body_length (snd (decode_header size_bits m)) = decimal_value ds /\
  data (snd (decode_header size_bits m)) = data m /\
  (decimal_value ds = 512 -> fst (decode_header size_bits m) = true) /\
  (decimal_value ds <= MAX_BODY_SIZE -> fst (decode_header size_bits m) = true) /\
  (MAX_BODY_SIZE < decimal_value ds -> fst (decode_header size_bits m) = false).
Proof.
  intros Hh Hpad Hds _.
  rewrite (decode_header_padded size_bits size_bits_min m pad ds Hh Hpad Hds).
  unfold MAX_BODY_SIZE. simpl fst. simpl snd. simpl body_length. simpl data.
  repeat split; intros H; destruct (Z.leb_spec (decimal_value ds) 512); lia || reflexivity.
Qed.

(** C10. A header that [atoi] reads as a negative number is rejected: the
    conversion to [size_t] turns the number [v] into [2^size_bits + v],
    which is above 512. So whenever [decode_header] returns [true],
    [body_length] is within 0..512. *)
Theorem negative_header_rejected (m : Message) :
  (atoi (header_string m) < 0 ->
   decode_header size_bits m
   = (false, mkMessage (data m) (2 ^ size_bits + atoi (header_string m))) /\
   MAX_BODY_SIZE < 2 ^ size_bits + atoi (header_string m)) /\
  (fst (decode_header size_bits m) = true ->
   0 <= body_length (snd (decode_header size_bits m)) <= MAX_BODY_SIZE).
Proof.
  pose proof (size_t_bound size_bits size_bits_min) as Hw.
  pose proof (atoi_header_range _ (header_string_length m)) as Hr.
  split.
  - intros Hneg. rewrite decode_header_eq.
    rewrite (size_t_of_int_negative size_bits size_bits_min) by lia.
    unfold MAX_BODY_SIZE. split; [|lia].
    destruct (Z.leb_spec (2 ^ size_bits + atoi (header_string m)) 512); [lia | reflexivity].
  - rewrite decode_header_eq. simpl fst. simpl snd. simpl body_length.
    intros Hok. apply Z.leb_le in Hok. split; [|exact Hok].
    unfold size_t_of_int. apply Z.mod_pos_bound. lia.
Qed.

(** A header in which [atoi] finds no digit, garbage such as "abcd"
    included, is accepted and declares a body of length 0. *)
Lemma decode_header_no_digits (m : Message) :
  no_digits (header_string m) = true ->
  decode_header size_bits m = (true, mkMessage (data m) 0).
Proof.
  intros Hg. rewrite decode_header_eq, (atoi_no_digits _ Hg).
  rewrite (size_t_of_int_small size_bits size_bits_min) by lia. reflexivity.
Qed.

End DecodeClaims.

Lemma decode_header_boundary_witness :
  (body_length (snd (decode_header 64 (received " 512"))) = 512 /\
   fst (decode_header 64 (received " 512")) = true) /\
  (body_length (snd (decode_header 64 (received " 513"))) = 513 /\
   fst (decode_header 64 (received " 513")) = false).
Proof.
  split.
  - destruct (decode_header_boundary 64 ltac:(lia) (received " 512") (chars " ") (chars "512"))
      as (Hlen & _ & Hok & _).
    + reflexivity.
    + repeat constructor.
    + repeat constructor.
    + discriminate.
    + split; [exact Hlen | apply Hok; reflexivity].
  - destruct (decode_header_boundary 64 ltac:(lia) (received " 513") (chars " ") (chars "513"))
      as (Hlen & _ & _ & _ & Hko).
    + reflexivity.
    + repeat constructor.
    + repeat constructor.
    + discriminate.
    + split; [exact Hlen | apply Hko; reflexivity].
Defined.

Example decode_header_512 :
  decode_header 64 (received " 512") = (true, mkMessage (data (received " 512")) 512).
Proof. reflexivity. Qed.

Example decode_header_513 :
  decode_header 64 (received " 513") = (false, mkMessage (data (received " 513")) 513).
Proof. reflexivity. Qed.

Example decode_header_0513 :
  decode_header 64 (received "0513") = (false, mkMessage (data (received "0513")) 513).
Proof. reflexivity. Qed.

Lemma negative_header_rejected_witness :
  (decode_header 64 (received "  -1")
   = (false, mkMessage (data (received "  -1"))
                       (2 ^ 64 + atoi (header_string (received "  -1")))) /\
   MAX_BODY_SIZE < 2 ^ 64 + atoi (header_string (received "  -1"))) /\
  0 <= body_length (snd (decode_header 64 (received "  12"))) <= MAX_BODY_SIZE.
Proof.
  split.
  - apply (negative_header_rejected 64 ltac:(lia) (received "  -1")). reflexivity.
  - apply (negative_header_rejected 64 ltac:(lia) (received "  12")). reflexivity.
Defined.

Example decode_header_minus_one :
  atoi (header_string (received "  -1")) = -1 /\
  decode_header 64 (received "  -1")
  = (false, mkMessage (data (received "  -1")) 18446744073709551615).
Proof. split; reflexivity. Qed.

(** C2, as the spec has it: a header that is not a numeral makes
    [decode_header] fail. The header "abcd" is not a numeral, and
    [decode_header] returns [true] on it. *)
Lemma garbage_header_not_rejected :
  ~ (forall m : Message,
       length (data m) = DATA_SIZE ->
       is_numeral (header m) = false ->
       fst (decode_header 64 m) = false).
Proof.
  intros claim.
  specialize (claim (received "abcd") eq_refl eq_refl).
  discriminate claim.
Qed.

(* ===================================================================== *)
(** * The room: backlog                                                   *)
(* ===================================================================== *)

Import Server.

Lemma pop_while_over_eq q :
  ChatRoom.pop_while_over q = last_n ChatRoom.MAX_RECENT_MSGS q.
Proof.
  unfold last_n. induction q as [|x q IH]; [reflexivity|].
  simpl ChatRoom.pop_while_over. simpl length.
  destruct (Nat.ltb_spec ChatRoom.MAX_RECENT_MSGS (S (length q))) as [Hlt|Hge].
  - rewrite IH. replace (S (length q) - ChatRoom.MAX_RECENT_MSGS)%nat
      with (S (length q - ChatRoom.MAX_RECENT_MSGS)) by lia.
    reflexivity.
  - replace (S (length q) - ChatRoom.MAX_RECENT_MSGS)%nat with 0%nat by lia.
    reflexivity.
Qed.

Lemma last_n_length {A} n (l : list A) : length (last_n n l) = Nat.min n (length l).
Proof. unfold last_n. rewrite length_drop. lia. Qed.

Lemma last_n_all {A} n (l : list A) : (length l <= n)%nat -> last_n n l = l.
Proof. intros H. unfold last_n. now replace (length l - n)%nat with 0%nat by lia. Qed.

Lemma last_n_snoc {A} n (l : list A) x :
  last_n n (last_n n l ++ [x]) = last_n n (l ++ [x]).
Proof.
  unfold last_n. rewrite !length_app, length_drop. simpl length.
  rewrite !drop_app, drop_drop, length_drop.
  f_equal; f_equal; lia.
Qed.

Section RoomFacts.

Context {P : Type} `{!ChatParticipant P}.

Lemma deliver_recent msg (r : ChatRoom.t P) :
  ChatRoom.recent_messages_ (ChatRoom.deliver msg r)
  = last_n ChatRoom.MAX_RECENT_MSGS (ChatRoom.recent_messages_ r ++ [msg]).
Proof. apply pop_while_over_eq. Qed.

(** The walk over the participants reaches each of them once. *)
Lemma in_order_NoDup ps : NoDup (ChatRoom.in_order ps).
Proof.
  unfold ChatRoom.in_order. rewrite merge_sort_Permutation. apply NoDup_elements.
Qed.

Lemma in_order_elem ps q : q ∈ ChatRoom.in_order ps <-> q ∈ ps.
Proof.
  unfold ChatRoom.in_order. rewrite merge_sort_Permutation. apply elem_of_elements.
Qed.

(** The loop of [join]: only the object at [p] changes, by one [deliver]
    for each message, front of the queue first. *)
Lemma join_loop p msgs (h : gmap nat P) q :
  foldl (fun h msg => ChatRoom.call_deliver p msg h) h msgs !! q
  = if decide (q = p)
    then (fun o => foldl (fun o msg => participant_deliver msg o) o msgs) <$> h !! q
    else h !! q.
Proof.
  revert h. induction msgs as [|msg msgs IH]; intros h; cbn [foldl].
  - destruct (decide (q = p)); [|reflexivity]. now destruct (h !! q).
  - rewrite IH. unfold ChatRoom.call_deliver. destruct (decide (q = p)) as [->|Hq].
    + rewrite lookup_alter_eq. now destruct (h !! p).
    + now rewrite lookup_alter_ne by congruence.
Qed.

(** The loop of [deliver]: the object of each participant gets one
    [deliver], every other object is left alone. *)
Lemma fan_out_loop msg ps (h : gmap nat P) q :
  NoDup ps ->
  foldl (fun h p => ChatRoom.call_deliver p msg h) h ps !! q
  = if decide (q ∈ ps) then participant_deliver msg <$> h !! q else h !! q.
Proof.
  intros Hnd. revert h. induction Hnd as [|p ps Hp Hnd IH]; intros h; cbn [foldl].
  - destruct (decide (q ∈ [])) as [Hq|]; [|reflexivity]. now apply elem_of_nil in Hq.
  - rewrite IH. unfold ChatRoom.call_deliver.
    destruct (decide (q = p)) as [->|Hne].
    + rewrite lookup_alter_eq.
      rewrite decide_False by exact Hp.
      rewrite decide_True by (apply elem_of_cons; now left). reflexivity.
    + rewrite lookup_alter_ne by congruence.
      destruct (decide (q ∈ ps)) as [Hin|Hout].
      * rewrite decide_True by (apply elem_of_cons; now right). reflexivity.
      * rewrite decide_False; [reflexivity|].
        intros Hq. apply elem_of_cons in Hq. tauto.
Qed.

Lemma deliver_objects msg (r : ChatRoom.t P) q :
  ChatRoom.objects (ChatRoom.deliver msg r) !! q
  = if decide (q ∈ ChatRoom.participants_ r)
    then participant_deliver msg <$> ChatRoom.objects r !! q
    else ChatRoom.objects r !! q.
Proof.
  unfold ChatRoom.deliver. simpl ChatRoom.objects.
  rewrite fan_out_loop by apply in_order_NoDup.
  destruct (decide (q ∈ ChatRoom.participants_ r)) as [Hin|Hout].
  - rewrite decide_True by (now apply in_order_elem). reflexivity.
  - rewrite decide_False; [reflexivity|]. now rewrite in_order_elem.
Qed.

End RoomFacts.

(** ** Runs of the server *)

Lemma run_snoc acts a r : run (acts ++ [a]) r = apply a (run acts r).
Proof. unfold run. now rewrite foldl_app. Qed.

Lemma run_cons a acts r : run (a :: acts) r = run acts (apply a r).
Proof. reflexivity. Qed.

Lemma delivered_snoc acts a :
  delivered (acts ++ [a])
  = delivered acts ++ match a with Deliver msg => [msg] | _ => [] end.
Proof.
  induction acts as [|b acts IH]; simpl.
  - destruct a; reflexivity.
  - destruct b; rewrite IH; reflexivity.
Qed.

Lemma delivered_map msgs : delivered (Deliver <$> msgs) = msgs.
Proof.
  induction msgs as [|m msgs IH]; [reflexivity|].
  rewrite fmap_cons. cbn [delivered]. now rewrite IH.
Qed.

Lemma apply_recent a r :
  ChatRoom.recent_messages_ (apply a r)
  = match a with
    | Deliver msg => last_n ChatRoom.MAX_RECENT_MSGS (ChatRoom.recent_messages_ r ++ [msg])
    | _ => ChatRoom.recent_messages_ r
    end.
Proof.
  destruct a as [p|p|msg|p ec]; try reflexivity.
  - apply deliver_recent.
  - now destruct ec.
Qed.

(** The backlog is the last 100 messages of what it held and of the calls
    of [deliver] since. *)
Lemma run_recent_from acts (r : ChatRoom.t ChatSession.t) :
  (length (ChatRoom.recent_messages_ r) <= ChatRoom.MAX_RECENT_MSGS)%nat ->
  ChatRoom.recent_messages_ (run acts r)
  = last_n ChatRoom.MAX_RECENT_MSGS (ChatRoom.recent_messages_ r ++ delivered acts).
Proof.
  intros Hr. induction acts as [|a acts IH] using rev_ind.
  - simpl. rewrite app_nil_r. symmetry. now apply last_n_all.
  - rewrite run_snoc, apply_recent, delivered_snoc, IH.
    destruct a; rewrite ?app_nil_r; try reflexivity.
    rewrite app_assoc. apply last_n_snoc.
Qed.

Lemma run_recent acts h :
  ChatRoom.recent_messages_ (run acts (ChatRoom.initial h))
  = last_n ChatRoom.MAX_RECENT_MSGS (delivered acts).
Proof. apply (run_recent_from acts (ChatRoom.initial h)). simpl. lia. Qed.

Lemma last_n_app {A} n (l k : list A) :
  (n <= length k)%nat -> last_n n (l ++ k) = last_n n k.
Proof.
  intros Hk. unfold last_n. rewrite length_app, drop_app.
  rewrite drop_ge by lia. simpl. f_equal. lia.
Qed.

(** C3. Backlog bound. After a run with more than 100 calls of [deliver]
    the backlog holds the last 100 delivered messages, in call order, and
    100 of them; so it does after more than 100 calls of [deliver] in a
    row on any room whose backlog is within the bound. After any run the
    backlog has at most 100 entries; and a [deliver] on a full backlog
    drops its front, the oldest entry, and adds the new message at the
    back. *)
Theorem backlog_bound :
  (forall (h : gmap nat ChatSession.t) (acts : list action),
      (100 < length (delivered acts))%nat ->
      ChatRoom.recent_messages_ (run acts (ChatRoom.initial h))
      = drop (length (delivered acts) - 100) (delivered acts) /\
      length (ChatRoom.recent_messages_ (run acts (ChatRoom.initial h))) = 100%nat) /\
  (forall (r : ChatRoom.t ChatSession.t) (msgs : list Message),
      (length (ChatRoom.recent_messages_ r) <= 100)%nat ->
      (100 < length msgs)%nat ->
      ChatRoom.recent_messages_ (foldl (fun r msg => ChatRoom.deliver msg r) r msgs)
      = drop (length msgs - 100) msgs) /\
  (forall (h : gmap nat ChatSession.t) (acts : list action),
      (length (ChatRoom.recent_messages_ (run acts (ChatRoom.initial h))) <= 100)%nat) /\
  (forall (r : ChatRoom.t ChatSession.t) (msg : Message),
      length (ChatRoom.recent_messages_ r) = 100%nat ->
      ChatRoom.recent_messages_ (ChatRoom.deliver msg r)
      = tail (ChatRoom.recent_messages_ r) ++ [msg]).
Proof.
  split; [|split; [|split]].
  - intros h acts Hn. rewrite run_recent. split; [reflexivity|].
    rewrite last_n_length. unfold ChatRoom.MAX_RECENT_MSGS. lia.
  - intros r msgs Hr Hn.
    pose proof (run_recent_from (Deliver <$> msgs) r Hr) as H.
    rewrite delivered_map in H. unfold run in H. rewrite foldl_fmap in H.
    etransitivity; [exact H|].
    apply last_n_app. unfold ChatRoom.MAX_RECENT_MSGS. lia.
  - intros h acts. rewrite run_recent, last_n_length.
    unfold ChatRoom.MAX_RECENT_MSGS. lia.
  - intros r msg Hfull. rewrite deliver_recent. unfold last_n.
    rewrite length_app, Hfull. simpl.
    destruct (ChatRoom.recent_messages_ r); [discriminate Hfull | reflexivity].
Qed.

Lemma backlog_bound_witness :
  ChatRoom.recent_messages_
    (foldl (fun r msg => ChatRoom.deliver msg r) (ChatRoom.initial two_sessions)
           (sample_msgs 101))
  = drop (length (sample_msgs 101) - 100) (sample_msgs 101)
  /\ ChatRoom.recent_messages_
       (ChatRoom.deliver (received "   0")
          (run (Deliver <$> sample_msgs 100) (ChatRoom.initial two_sessions)))
     = tail (ChatRoom.recent_messages_
               (run (Deliver <$> sample_msgs 100) (ChatRoom.initial two_sessions)))
       ++ [received "   0"].
Proof.
  split.
  - apply (proj1 (proj2 backlog_bound)).
    + simpl. lia.
    + unfold sample_msgs. rewrite length_fmap, length_seq. lia.
  - apply (proj2 (proj2 (proj2 backlog_bound))). vm_compute. reflexivity.
Defined.

(* ===================================================================== *)
(** * The room: membership                                                *)
(* ===================================================================== *)

(** C7. [leave] is total. When [s] is not a participant it changes
    nothing, so a second [leave] changes nothing; in every case it takes
    out [s] and nothing else: each other pointer is in the set afterwards
    exactly when it was before, and backlog and objects stay as they are. *)
Theorem leave_idempotent {P : Type} (r : ChatRoom.t P) (s : nat) :
  ((s ∉ ChatRoom.participants_ r) -> ChatRoom.leave s r = r) /\
  ChatRoom.leave s (ChatRoom.leave s r) = ChatRoom.leave s r /\
  (s ∉ ChatRoom.participants_ (ChatRoom.leave s r)) /\
  (forall q, q <> s ->
     (q ∈ ChatRoom.participants_ (ChatRoom.leave s r) <-> q ∈ ChatRoom.participants_ r)) /\
  ChatRoom.recent_messages_ (ChatRoom.leave s r) = ChatRoom.recent_messages_ r /\
  ChatRoom.objects (ChatRoom.leave s r) = ChatRoom.objects r.
Proof.
  destruct r as [ps recent objs]. unfold ChatRoom.leave. simpl.
  split; [|split; [|split; [|split; [|split]]]]; try reflexivity.
  - intros Hs. f_equal. apply set_eq. intros x.
    rewrite elem_of_difference, elem_of_singleton. split; [tauto|].
    intros Hx. split; [exact Hx | congruence].
  - f_equal. apply set_eq. intros x.
    rewrite !elem_of_difference, elem_of_singleton. tauto.
  - rewrite elem_of_difference, elem_of_singleton. tauto.
  - intros q Hq. rewrite elem_of_difference, elem_of_singleton. tauto.
Qed.

Lemma leave_idempotent_witness :
  ChatRoom.leave 7 (run [Join 3%nat; Join 5%nat] (ChatRoom.initial two_sessions))
  = run [Join 3%nat; Join 5%nat] (ChatRoom.initial two_sessions)
  /\ (5%nat ∈ ChatRoom.participants_
        (ChatRoom.leave 3 (run [Join 3%nat; Join 5%nat] (ChatRoom.initial two_sessions)))
      <-> 5%nat ∈ ChatRoom.participants_
            (run [Join 3%nat; Join 5%nat] (ChatRoom.initial two_sessions))).
Proof.
  split.
  - apply (proj1 (leave_idempotent
             (run [Join 3%nat; Join 5%nat] (ChatRoom.initial two_sessions)) 7)).
    refine (bool_decide_unpack _ _). vm_compute. exact I.
  - apply (proj1 (proj2 (proj2 (proj2 (leave_idempotent
             (run [Join 3%nat; Join 5%nat] (ChatRoom.initial two_sessions)) 3))))).
    lia.
Defined.

(** ** The handler of a header read *)

(** The header a handler decodes is made of the bytes that were read. *)
Lemma header_after_read (d bytes : list ascii) (n : Z) :
  length bytes = 4%nat ->
  header_string (mkMessage (memcpy d bytes (length bytes)) n) = c_str bytes.
Proof.
  intros Hb. rewrite header_string_eq. unfold header, memcpy. simpl data.
  rewrite Hb. change (Z.to_nat HEADER_SIZE) with 4%nat.
  rewrite (take_ge bytes) by lia. now rewrite take_app_length' by (now rewrite Hb).
Qed.

Lemma decode_after_read size_bits (d bytes : list ascii) (n : Z) :
  length bytes = 4%nat ->
  fst (decode_header size_bits (mkMessage (memcpy d bytes (length bytes)) n))
  = fst (decode_header size_bits (mkMessage bytes 0)).
Proof.
  intros Hb. rewrite !decode_header_eq. simpl fst.
  rewrite header_after_read by exact Hb.
  rewrite header_string_eq. unfold header. simpl data.
  change (Z.to_nat HEADER_SIZE) with 4%nat. now rewrite take_ge by lia.
Qed.

(** What [decode_header] returns decides between the next read and
    leaving the room. *)
Lemma header_handler_outcome size_bits this bytes (r : ChatRoom.t ChatSession.t) s :
  ChatRoom.objects r !! this = Some s ->
  let rm := ChatSession.read_msg_ s in
  let rm1 := mkMessage (memcpy (data rm) bytes (length bytes)) (body_length rm) in
  let r' := ChatSession.header_handler size_bits this false bytes r in
  exists s',
    ChatRoom.objects r' !! this = Some s' /\
    ChatSession.read_msg_ s' = snd (decode_header size_bits rm1) /\
    if fst (decode_header size_bits rm1)
    then ChatRoom.participants_ r' = ChatRoom.participants_ r /\
         ChatSession.reading s'
         = ChatSession.read_body (body_length (snd (decode_header size_bits rm1)))
    else ChatRoom.participants_ r' = ChatRoom.participants_ r ∖ {[this]} /\
         ChatSession.reading s' = ChatSession.no_read.
Proof.
  intros Hs rm rm1 r'. unfold r', ChatSession.header_handler. rewrite Hs.
  unfold ChatSession.on_header. fold rm rm1.
  destruct (decode_header size_bits rm1) as [ok rm2] eqn:E.
  destruct ok; simpl; rewrite lookup_insert_eq; eexists; repeat split.
Qed.

(** The session at 5 has read "abcd" as a header: it stays in the room and
    reads a body of no bytes. After " 513" it is out of the room. *)
Example header_handler_garbage :
  let r := ChatSession.header_handler 64 5 false (chars "abcd") room_awaiting_body in
  ChatRoom.participants_ r = {[5%nat]} /\
  ChatSession.reading <$> ChatRoom.objects r !! 5%nat = Some (ChatSession.read_body 0).
Proof. vm_compute. split; reflexivity. Qed.

Example header_handler_513 :
  let r := ChatSession.header_handler 64 5 false (chars " 513") room_awaiting_body in
  ChatRoom.participants_ r = ∅ /\
  ChatSession.reading <$> ChatRoom.objects r !! 5%nat = Some ChatSession.no_read.
Proof. vm_compute. split; reflexivity. Qed.

(** C2, as the code has it. Neither [decode_header] nor the handler of the
    header read has an outcome for a header that cannot be parsed. Let
    [bytes] be the four bytes a session has read as a header, and [v] the
    number [atoi] converts from them, taken as [size_t].
    - [decode_header] stores [v] as the body length and returns
      [v <= 512]: it returns [false] exactly when [v] is above 512. When
      [atoi] finds no digit to convert, as in "abcd" or in a blank
      field, it returns [true] and stores length 0.
    - The handler follows that result. After a header without digits the
      session is in the room as before and has started the read of a body
      of 0 bytes: the connection goes on. The same holds, with a body of
      [v] bytes, whenever [v] is at most 512; only when [v] is above 512
      does the handler take the session out of the room and start no
      further read. *)
Theorem garbage_header_accepted (size_bits : Z) (this : nat) (bytes : list ascii)
    (r : ChatRoom.t ChatSession.t) (s : ChatSession.t) :
  16 <= size_bits ->
  ChatRoom.objects r !! this = Some s ->
  length bytes = 4%nat ->
  let v := size_t_of_int size_bits (atoi (c_str bytes)) in
  let r' := ChatSession.header_handler size_bits this false bytes r in
  (forall m, header m = bytes ->
     decode_header size_bits m = (v <=? MAX_BODY_SIZE, mkMessage (data m) v) /\
     (fst (decode_header size_bits m) = false <-> MAX_BODY_SIZE < v) /\
     (no_digits (c_str bytes) = true ->
      decode_header size_bits m = (true, mkMessage (data m) 0))) /\
  (no_digits (c_str bytes) = true ->
     ChatRoom.participants_ r' = ChatRoom.participants_ r /\
     exists s',
       ChatRoom.objects r' !! this = Some s' /\
       body_length (ChatSession.read_msg_ s') = 0 /\
       ChatSession.reading s' = ChatSession.read_body 0) /\
  (v <= MAX_BODY_SIZE ->
     ChatRoom.participants_ r' = ChatRoom.participants_ r /\
     exists s',
       ChatRoom.objects r' !! this = Some s' /\
       body_length (ChatSession.read_msg_ s') = v /\
       ChatSession.reading s' = ChatSession.read_body v) /\
  (MAX_BODY_SIZE < v ->
     ChatRoom.participants_ r' = ChatRoom.participants_ r ∖ {[this]} /\
     exists s',
       ChatRoom.objects r' !! this = Some s' /\
       ChatSession.reading s' = ChatSession.no_read).
Proof.
  intros Hsz Hs Hb v r'.
  assert (Hv0 : no_digits (c_str bytes) = true -> v = 0).
  { intros Hg. unfold v. rewrite (atoi_no_digits _ Hg).
    apply (size_t_of_int_small size_bits Hsz). lia. }
  assert (Hdec : forall m, header m = bytes ->
            decode_header size_bits m = (v <=? MAX_BODY_SIZE, mkMessage (data m) v)).
  { intros m Hm. rewrite decode_header_eq, header_string_eq, Hm. reflexivity. }
  assert (Hkeep : v <= MAX_BODY_SIZE ->
            ChatRoom.participants_ r' = ChatRoom.participants_ r /\
            exists s',
              ChatRoom.objects r' !! this = Some s' /\
              body_length (ChatSession.read_msg_ s') = v /\
              ChatSession.reading s' = ChatSession.read_body v).
  { intros Hle.
    destruct (header_handler_outcome size_bits this bytes r s Hs) as (s' & Hs' & Hrm & Hif).
    rewrite decode_header_eq, header_after_read in Hrm, Hif by exact Hb.
    fold v in Hrm, Hif. cbn [fst snd body_length] in Hif.
    destruct (Z.leb_spec v MAX_BODY_SIZE) as [_|Hgt]; [|lia].
    destruct Hif as [Hpart Hread]. split; [exact Hpart|].
    exists s'. split; [exact Hs'|]. split; [now rewrite Hrm | exact Hread]. }
  split; [|split; [|split]].
  - intros m Hm. split; [apply Hdec, Hm|]. split.
    + rewrite (Hdec m Hm). cbn [fst]. rewrite Z.leb_gt. reflexivity.
    + intros Hg. rewrite (Hdec m Hm), (Hv0 Hg). reflexivity.
  - intros Hg. rewrite <- (Hv0 Hg). apply Hkeep. rewrite (Hv0 Hg). unfold MAX_BODY_SIZE. lia.
  - exact Hkeep.
  - intros Hgt.
    destruct (header_handler_outcome size_bits this bytes r s Hs) as (s' & Hs' & Hrm & Hif).
    rewrite decode_header_eq, header_after_read in Hif by exact Hb.
    fold v in Hif. cbn [fst snd body_length] in Hif.
    destruct (Z.leb_spec v MAX_BODY_SIZE) as [Hle|_]; [lia|].
    destruct Hif as [Hpart Hread]. split; [exact Hpart|].
    exists s'. split; [exact Hs' | exact Hread].
Qed.

(** The session at 5 reads "abcd": it stays in the room and reads a body
    of no bytes. It reads " 513": it is out of the room. *)
Lemma garbage_header_accepted_witness :
  (decode_header 64 (received "abcd") = (true, mkMessage (data (received "abcd")) 0) /\
   ChatRoom.participants_
     (ChatSession.header_handler 64 5 false (chars "abcd") room_awaiting_body)
   = ChatRoom.participants_ room_awaiting_body /\
   exists s',
     ChatRoom.objects
       (ChatSession.header_handler 64 5 false (chars "abcd") room_awaiting_body) !! 5%nat
     = Some s' /\
     body_length (ChatSession.read_msg_ s') = 0 /\
     ChatSession.reading s' = ChatSession.read_body 0) /\
  (ChatRoom.participants_
     (ChatSession.header_handler 64 5 false (chars " 513") room_awaiting_body)
   = ChatRoom.participants_ room_awaiting_body ∖ {[5%nat]} /\
   exists s',
     ChatRoom.objects
       (ChatSession.header_handler 64 5 false (chars " 513") room_awaiting_body) !! 5%nat
     = Some s' /\
     ChatSession.reading s' = ChatSession.no_read).
Proof.
  split; [split|].
  - apply (proj1 (garbage_header_accepted 64 5%nat (chars "abcd") room_awaiting_body
                    awaiting_body ltac:(lia) eq_refl eq_refl) (received "abcd") eq_refl).
    reflexivity.
  - apply (proj1 (proj2 (garbage_header_accepted 64 5%nat (chars "abcd") room_awaiting_body
                           awaiting_body ltac:(lia) eq_refl eq_refl))).
    reflexivity.
  - apply (proj2 (proj2 (proj2 (garbage_header_accepted 64 5%nat (chars " 513")
                                  room_awaiting_body awaiting_body
                                  ltac:(lia) eq_refl eq_refl)))).
    reflexivity.
Defined.

(* ===================================================================== *)
(** * The room: what a session is sent                                    *)
(* ===================================================================== *)

Lemma outbound_do_write s :
  ChatSession.outbound (ChatSession.do_write s) = ChatSession.outbound s.
Proof.
  unfold ChatSession.do_write, ChatSession.outbound.
  destruct (ChatSession.write_msgs_ s) as [|msg rest] eqn:E; simpl.
  - now rewrite E.
  - now rewrite <- app_assoc.
Qed.

Lemma outbound_deliver msg s :
  ChatSession.outbound (ChatSession.deliver msg s) = ChatSession.outbound s ++ [msg].
Proof.
  unfold ChatSession.deliver.
  destruct (ChatSession.writing_ s); simpl negb; cbv iota;
    rewrite ?outbound_do_write; unfold ChatSession.outbound; simpl;
    now rewrite app_assoc.
Qed.

Lemma outbound_deliver_all msgs s :
  ChatSession.outbound (foldl (fun o msg => participant_deliver msg o) s msgs)
  = ChatSession.outbound s ++ msgs.
Proof.
  revert s. induction msgs as [|msg msgs IH]; intros s; cbn [foldl].
  - now rewrite app_nil_r.
  - rewrite IH. unfold participant_deliver, ChatSession.participant.
    rewrite outbound_deliver, <- app_assoc. reflexivity.
Qed.

(** One action that neither removes [p] from the room nor joins it again
    appends to what [p] is sent exactly the message it delivers, if any. *)
Lemma apply_keeps p a r s :
  concerns p a = false ->
  p ∈ ChatRoom.participants_ r ->
  ChatRoom.objects r !! p = Some s ->
  exists s',
    ChatRoom.objects (apply a r) !! p = Some s' /\
    ChatSession.outbound s'
    = ChatSession.outbound s ++ match a with Deliver msg => [msg] | _ => [] end /\
    p ∈ ChatRoom.participants_ (apply a r).
Proof.
  intros Hc Hp Hs. destruct a as [q|q|msg|q ec]; simpl in Hc; simpl apply.
  - apply bool_decide_eq_false in Hc. exists s. split; [|split].
    + unfold ChatRoom.join. simpl ChatRoom.objects. rewrite join_loop.
      now rewrite decide_False by congruence.
    + now rewrite app_nil_r.
    + unfold ChatRoom.join. simpl. apply elem_of_union. now right.
  - apply bool_decide_eq_false in Hc. exists s. split; [|split].
    + exact Hs.
    + now rewrite app_nil_r.
    + unfold ChatRoom.leave. simpl. rewrite elem_of_difference, elem_of_singleton.
      split; [exact Hp | congruence].
  - exists (ChatSession.deliver msg s). split; [|split].
    + rewrite deliver_objects, decide_True by exact Hp. now rewrite Hs.
    + apply outbound_deliver.
    + exact Hp.
  - unfold ChatSession.write_handler. destruct ec.
    + rewrite andb_true_r in Hc. apply bool_decide_eq_false in Hc.
      exists s. simpl. split; [|split].
      * now rewrite lookup_alter_ne by congruence.
      * now rewrite app_nil_r.
      * rewrite elem_of_difference, elem_of_singleton. split; [exact Hp | congruence].
    + simpl. destruct (decide (q = p)) as [->|Hq].
      * exists (ChatSession.do_write s). rewrite lookup_alter_eq, Hs.
        split; [reflexivity|]. split; [|exact Hp].
        now rewrite outbound_do_write, app_nil_r.
      * exists s. rewrite lookup_alter_ne by congruence.
        split; [exact Hs|]. split; [now rewrite app_nil_r | exact Hp].
Qed.

Lemma run_keeps p acts r s :
  forallb (fun a => negb (concerns p a)) acts = true ->
  p ∈ ChatRoom.participants_ r ->
  ChatRoom.objects r !! p = Some s ->
  exists s',
    ChatRoom.objects (run acts r) !! p = Some s' /\
    ChatSession.outbound s' = ChatSession.outbound s ++ delivered acts.
Proof.
  revert r s. induction acts as [|a acts IH]; intros r s Hall Hp Hs.
  - exists s. split; [exact Hs | now rewrite app_nil_r].
  - simpl in Hall. apply andb_true_iff in Hall. destruct Hall as [Ha Hall].
    apply negb_true_iff in Ha.
    destruct (apply_keeps p a r s Ha Hp Hs) as (s1 & Hs1 & Ho1 & Hp1).
    destruct (IH (apply a r) s1 Hall Hp1 Hs1) as (s2 & Hs2 & Ho2).
    exists s2. rewrite run_cons. split; [exact Hs2|].
    rewrite Ho2, Ho1, <- app_assoc. f_equal. now destruct a.
Qed.

(** The snapshot of C4, for the loop of [join] read as a walk from the
    front of the copy. The loop the source has is ill-formed (see
    [ChatRoom.join]), so the first part below is a statement about that
    reading and not about the source as written; the second part, that
    [join] changes no other session, does not depend on the loop.
    Let a session [p] join after a run [before] with at most 100 calls of
    [deliver]. Under that reading the join appends to what [p] is handed
    exactly the messages of those calls, oldest first, and whatever is
    delivered afterwards, as long as [p] stays in the room, follows them. *)
Lemma join_snapshot (h : gmap nat ChatSession.t) (before after : list action)
    (p : nat) (s : ChatSession.t) :
  (length (delivered before) <= 100)%nat ->
  ChatRoom.objects (run before (ChatRoom.initial h)) !! p = Some s ->
  forallb (fun a => negb (concerns p a)) after = true ->
  (exists s1,
      ChatRoom.objects (ChatRoom.join p (run before (ChatRoom.initial h))) !! p = Some s1 /\
      ChatSession.outbound s1 = ChatSession.outbound s ++ delivered before) /\
  (forall q, q <> p ->
      ChatRoom.objects (ChatRoom.join p (run before (ChatRoom.initial h))) !! q
      = ChatRoom.objects (run before (ChatRoom.initial h)) !! q) /\
  (exists s2,
      ChatRoom.objects (run after (ChatRoom.join p (run before (ChatRoom.initial h)))) !! p
      = Some s2 /\
      ChatSession.outbound s2
      = ChatSession.outbound s ++ delivered before ++ delivered after).
Proof.
  intros HK Hs Hafter.
  set (r := run before (ChatRoom.initial h)) in *.
  assert (Hrecent : ChatRoom.recent_messages_ r = delivered before).
  { unfold r. rewrite run_recent. apply last_n_all. exact HK. }
  assert (Hjoin : ChatRoom.objects (ChatRoom.join p r) !! p
                  = Some (foldl (fun o msg => participant_deliver msg o) s (delivered before))).
  { unfold ChatRoom.join. simpl ChatRoom.objects.
    rewrite join_loop, decide_True, Hs, Hrecent by reflexivity. reflexivity. }
  split; [|split].
  - eexists. split; [exact Hjoin | apply outbound_deliver_all].
  - intros q Hq. unfold ChatRoom.join. simpl ChatRoom.objects.
    rewrite join_loop. now rewrite decide_False by exact Hq.
  - assert (Hp : p ∈ ChatRoom.participants_ (ChatRoom.join p r)).
    { unfold ChatRoom.join. simpl. apply elem_of_union. left. now apply elem_of_singleton. }
    destruct (run_keeps p after (ChatRoom.join p r) _ Hafter Hp Hjoin) as (s2 & Hs2 & Ho2).
    exists s2. split; [exact Hs2|].
    rewrite Ho2, outbound_deliver_all, <- app_assoc. reflexivity.
Qed.

Lemma join_snapshot_witness :
  exists s2,
    ChatRoom.objects
      (run [Deliver (received "   2"); WriteDone 5 false]
         (ChatRoom.join 5
            (run [Join 3%nat; Deliver (received "   0"); Deliver (received "   1")]
               (ChatRoom.initial two_sessions)))) !! 5%nat
    = Some s2 /\
    ChatSession.outbound s2
    = ChatSession.outbound (ChatSession.fresh junk)
      ++ delivered [Join 3%nat; Deliver (received "   0"); Deliver (received "   1")]
      ++ delivered [Deliver (received "   2"); WriteDone 5%nat false].
Proof.
  apply (proj2 (proj2 (join_snapshot two_sessions
           [Join 3%nat; Deliver (received "   0"); Deliver (received "   1")]
           [Deliver (received "   2"); WriteDone 5%nat false]
           5%nat (ChatSession.fresh junk)
           ltac:(simpl; lia) eq_refl eq_refl))).
Defined.

(* ===================================================================== *)
(** * The session: decoration of an inbound message                       *)
(* ===================================================================== *)

(** Only the first 512 bytes of the text reach the message. *)
Lemma make_message_truncates fresh line :
  make_message fresh line = make_message fresh (take 512 line).
Proof.
  unfold make_message, memcpy_at, memcpy, MAX_BODY_SIZE.
  rewrite length_take.
  replace (Z.min (Z.of_nat (512 `min` length line)) 512)
    with (Z.min (Z.of_nat (length line)) 512) by lia.
  rewrite take_take.
  replace (Z.to_nat (Z.min (Z.of_nat (length line)) 512) `min` 512)%nat
    with (Z.to_nat (Z.min (Z.of_nat (length line)) 512)) by lia.
  reflexivity.
Qed.

Lemma make_message_body fresh line :
  length fresh = DATA_SIZE ->
  exists m,
    make_message fresh line = Some m /\
    body_length m = Z.of_nat (length (take 512 line)) /\
    header m = format_4d (body_length m) /\
    body_bytes m = take 512 line /\
    frame m = header m ++ take 512 line.
Proof.
  intros Hf. pose proof Hf as Hf'. change DATA_SIZE with 516%nat in Hf'.
  assert (Hl : (length (take 512 line) <= 512)%nat) by (rewrite length_take; lia).
  rewrite make_message_truncates, make_message_eq by assumption.
  set (body := take 512 line) in *. set (n := Z.of_nat (length body)).
  destruct (format_4d_shape n ltac:(lia)) as [_ Hlen].
  eexists. split; [reflexivity|]. simpl body_length.
  assert (Hh : header (mkMessage (format_4d n ++ body ++ drop (4 + length body) fresh) n)
               = format_4d n).
  { unfold header. simpl data. apply take_app_length'. now rewrite Hlen. }
  rewrite Hh. split; [reflexivity|]. split; [reflexivity|]. split.
  - unfold body_bytes, Codec.body. simpl data. simpl body_length.
    change (Z.to_nat HEADER_SIZE) with 4%nat.
    rewrite drop_app_length' by (now rewrite Hlen).
    unfold n. rewrite Nat2Z.id. apply take_app_length.
  - unfold frame, length_, HEADER_SIZE. simpl data. simpl body_length.
    rewrite Z2Nat.inj_add by lia. change (Z.to_nat 4) with 4%nat.
    rewrite take_app_add' by (now rewrite Hlen).
    unfold n. rewrite Nat2Z.id. now rewrite take_app_length.
Qed.

(** The body a completed read of [body_length] bytes leaves in [read_msg_]. *)
Lemma read_body_bytes rm bytes :
  length (data rm) = DATA_SIZE ->
  Z.of_nat (length bytes) = body_length rm ->
  body_bytes (mkMessage (memcpy_at (data rm) (Z.to_nat HEADER_SIZE) bytes (length bytes))
                        (body_length rm))
  = bytes.
Proof.
  change DATA_SIZE with 516%nat. intros Hd Hn.
  unfold body_bytes, Codec.body, memcpy_at, memcpy. simpl data. simpl body_length.
  change (Z.to_nat HEADER_SIZE) with 4%nat.
  rewrite drop_app_length' by (rewrite length_take; lia).
  rewrite (take_ge bytes) by lia.
  rewrite <- Hn, Nat2Z.id. apply take_app_length.
Qed.

Lemma pop_back_snoc s c : ChatSession.pop_back (s ++ [c]) = Some s.
Proof.
  unfold ChatSession.pop_back. rewrite removelast_last.
  now destruct s.
Qed.

Lemma on_this_outbound this f (r : ChatRoom.t ChatSession.t) q sq :
  (forall s, ChatSession.outbound (f s) = ChatSession.outbound s) ->
  ChatRoom.objects r !! q = Some sq ->
  exists sq',
    ChatRoom.objects (ChatSession.on_this this f r) !! q = Some sq' /\
    ChatSession.outbound sq' = ChatSession.outbound sq.
Proof.
  intros Hf Hq. unfold ChatSession.on_this. simpl ChatRoom.objects.
  destruct (decide (this = q)) as [->|Hne].
  - rewrite lookup_alter_eq, Hq. eexists. split; [reflexivity | apply Hf].
  - rewrite lookup_alter_ne by exact Hne. now exists sq.
Qed.

(** C6. Server transform. When the read of a body of at most 512 bytes
    completes, the handler passes to the room's [deliver] one message
    [response], whose body is "[" + timestamp + "] Client: " + the bytes
    read, cut to its first 512 bytes, behind the header of that length;
    [timestamp] is the string of [ctime] without its last character, the
    newline. The message becomes the newest entry of the backlog and is
    appended to what every participant is sent. *)
Theorem server_transform (this : nat) (r : ChatRoom.t ChatSession.t)
    (s : ChatSession.t) (bytes timestamp fresh : list ascii) (newline : ascii) :
  ChatRoom.objects r !! this = Some s ->
  length (data (ChatSession.read_msg_ s)) = DATA_SIZE ->
  Z.of_nat (length bytes) = body_length (ChatSession.read_msg_ s) ->
  body_length (ChatSession.read_msg_ s) <= MAX_BODY_SIZE ->
  length fresh = DATA_SIZE ->
  exists response r1,
    body_bytes response = take 512 (chars "[" ++ timestamp ++ chars "] Client: " ++ bytes) /\
    body_length response = Z.of_nat (length (body_bytes response)) /\
    frame response = format_4d (body_length response) ++ body_bytes response /\
    ChatRoom.participants_ r1 = ChatRoom.participants_ r /\
    ChatRoom.recent_messages_ r1 = ChatRoom.recent_messages_ r /\
    ChatSession.body_handler this false bytes (timestamp ++ [newline]) fresh r
    = Some (ChatSession.on_this this ChatSession.do_read_header
              (ChatRoom.deliver response r1)) /\
    (forall r', ChatSession.body_handler this false bytes (timestamp ++ [newline]) fresh r
                = Some r' ->
       last (ChatRoom.recent_messages_ r') = Some response /\
       forall q sq, q ∈ ChatRoom.participants_ r -> ChatRoom.objects r !! q = Some sq ->
         exists sq', ChatRoom.objects r' !! q = Some sq' /\
                     ChatSession.outbound sq' = ChatSession.outbound sq ++ [response]).
Proof.
  intros Hs Hd Hn _ Hf.
  set (rm := ChatSession.read_msg_ s) in *.
  set (rm1 := mkMessage (memcpy_at (data rm) (Z.to_nat HEADER_SIZE) bytes (length bytes))
                        (body_length rm)).
  set (s1 := ChatSession.set_reading ChatSession.no_read (ChatSession.set_read_msg rm1 s)).
  set (text := chars "[" ++ timestamp ++ chars "] Client: " ++ bytes).
  destruct (make_message_body fresh text Hf) as (response & Hmk & Hlen & Hh & Hb & Hfr).
  assert (Hresp : ChatSession.make_response (timestamp ++ [newline]) fresh rm1 = Some response).
  { unfold ChatSession.make_response, ChatSession.formatted_msg.
    rewrite pop_back_snoc. unfold rm1. rewrite read_body_bytes by assumption. exact Hmk. }
  assert (Hrun : ChatSession.body_handler this false bytes (timestamp ++ [newline]) fresh r
                 = Some (ChatSession.on_this this ChatSession.do_read_header
                           (ChatRoom.deliver response (ChatRoom.store this s1 r)))).
  { unfold ChatSession.body_handler. rewrite Hs. fold rm rm1 s1. now rewrite Hresp. }
  exists response, (ChatRoom.store this s1 r).
  split; [exact Hb|]. split; [now rewrite Hb|].
  split; [now rewrite Hfr, Hh, Hb|].
  split; [reflexivity|]. split; [reflexivity|]. split; [exact Hrun|].
  intros r' Hr'. rewrite Hrun in Hr'. injection Hr' as <-. split.
  - unfold ChatSession.on_this. cbn [ChatRoom.recent_messages_].
    rewrite deliver_recent. unfold last_n.
    set (k := (_ - _)%nat).
    rewrite drop_app_le
      by (unfold k, ChatRoom.MAX_RECENT_MSGS; rewrite length_app; simpl; lia).
    apply last_snoc.
  - intros q sq Hq Hsq.
    assert (Hq1 : exists sq1, ChatRoom.objects (ChatRoom.store this s1 r) !! q = Some sq1 /\
                              ChatSession.outbound sq1 = ChatSession.outbound sq).
    { unfold ChatRoom.store. simpl ChatRoom.objects.
      destruct (decide (this = q)) as [->|Hne].
      - rewrite lookup_insert_eq. exists s1. split; [reflexivity|].
        rewrite Hs in Hsq. injection Hsq as <-. reflexivity.
      - rewrite lookup_insert_ne by exact Hne. now exists sq. }
    destruct Hq1 as (sq1 & Hsq1 & Ho1).
    assert (Hq2 : ChatRoom.objects (ChatRoom.deliver response (ChatRoom.store this s1 r)) !! q
                  = Some (ChatSession.deliver response sq1)).
    { rewrite deliver_objects, decide_True by exact Hq. now rewrite Hsq1. }
    destruct (on_this_outbound this ChatSession.do_read_header _ q _
                ltac:(reflexivity) Hq2) as (sq' & Hsq' & Ho').
    exists sq'. split; [exact Hsq'|].
    now rewrite Ho', outbound_deliver, Ho1.
Qed.

Lemma server_transform_witness :
  exists response r1,
    body_bytes response
    = take 512 (chars "[" ++ chars "Tue Nov  3 05:14:00 2026" ++ chars "] Client: "
                ++ chars "hello") /\
    body_length response = Z.of_nat (length (body_bytes response)) /\
    frame response = format_4d (body_length response) ++ body_bytes response /\
    ChatRoom.participants_ r1 = ChatRoom.participants_ room_awaiting_body /\
    ChatRoom.recent_messages_ r1 = ChatRoom.recent_messages_ room_awaiting_body /\
    ChatSession.body_handler 5 false (chars "hello")
      (chars "Tue Nov  3 05:14:00 2026" ++ ["010"%char]) junk room_awaiting_body
    = Some (ChatSession.on_this 5 ChatSession.do_read_header
              (ChatRoom.deliver response r1)) /\
    (forall r', ChatSession.body_handler 5 false (chars "hello")
                  (chars "Tue Nov  3 05:14:00 2026" ++ ["010"%char]) junk room_awaiting_body
                = Some r' ->
       last (ChatRoom.recent_messages_ r') = Some response /\
       forall q sq, q ∈ ChatRoom.participants_ room_awaiting_body ->
         ChatRoom.objects room_awaiting_body !! q = Some sq ->
         exists sq', ChatRoom.objects r' !! q = Some sq' /\
                     ChatSession.outbound sq' = ChatSession.outbound sq ++ [response]).
Proof.
  apply (server_transform 5 room_awaiting_body awaiting_body (chars "hello")
           (chars "Tue Nov  3 05:14:00 2026") junk "010"%char).
  - reflexivity.
  - reflexivity.
  - reflexivity.
  - simpl. unfold MAX_BODY_SIZE. lia.
  - reflexivity.
Defined.

Example server_transform_hello :
  option_map (fun r => frame <$> ChatRoom.recent_messages_ r)
    (ChatSession.body_handler 5 false (chars "hello")
       (chars "Tue Nov  3 05:14:00 2026" ++ ["010"%char]) junk room_awaiting_body)
  = Some [chars "  40[Tue Nov  3 05:14:00 2026] Client: hello"].
Proof. vm_compute. reflexivity. Qed.

(* ===================================================================== *)
(** * The write side: one write at a time                                 *)
(* ===================================================================== *)

Import WriteSide.

Lemma sum_list_with_insert {A} (f : A -> nat) (l : list A) i x y :
  l !! i = Some x ->
  (sum_list_with f (<[i := y]> l) + f x = sum_list_with f l + f y)%nat.
Proof.
  revert i. induction l as [|z l IH]; intros i Hi; [discriminate Hi|].
  destruct i as [|i]; simpl in *.
  - injection Hi as ->. lia.
  - specialize (IH i Hi). lia.
Qed.

Lemma sum_list_with_lookup {A} (f : A -> nat) (l : list A) i x :
  l !! i = Some x -> (f x <= sum_list_with f l)%nat.
Proof.
  revert i. induction l as [|z l IH]; intros i Hi; [discriminate Hi|].
  destruct i as [|i]; simpl in *.
  - injection Hi as ->. lia.
  - specialize (IH i Hi). lia.
Qed.

(** One statement of a thread passes the token on or hands it back; it
    never makes a second one. *)
Lemma exec_token at_ sh sh' at' :
  exec at_ sh = Some (sh', at') ->
  (may_write at_ <= Nat.b2n (writing_ sh))%nat ->
  (may_write at' + length (in_flight sh') + Nat.b2n (writing_ sh)
   = may_write at_ + length (in_flight sh) + Nat.b2n (writing_ sh'))%nat.
Proof.
  intros Hexec Hle.
  destruct at_; simpl in Hexec;
    try (unfold lock in Hexec; destruct (write_mutex_ sh));
    try (destruct (write_msgs_ sh) eqn:Hq);
    try discriminate Hexec;
    injection Hexec as <- <-; simpl in *;
    rewrite ?length_app; simpl;
    repeat match goal with
           | b : bool |- _ => destruct b; simpl in *
           | |- context [writing_ ?x] => destruct (writing_ x); simpl in *
           end; lia.
Qed.

Lemma sched_token c mv : token_held c -> token_held (sched c mv).
Proof.
  unfold token_held, writers. intros Hc. destruct mv as [msg|i|k ec]; simpl.
  - rewrite sum_list_with_app. simpl. lia.
  - destruct (threads c !! i) as [at_|] eqn:Hi; [|exact Hc].
    destruct (exec at_ (members c)) as [[sh' at']|] eqn:Hexec; [|exact Hc].
    simpl.
    pose proof (sum_list_with_insert may_write _ i at_ at' Hi) as Hsum.
    pose proof (sum_list_with_lookup may_write _ i at_ Hi) as Hle.
    pose proof (exec_token _ _ _ _ Hexec) as Hstep.
    destruct (writing_ (members c)); simpl in *; lia.
  - destruct (in_flight (members c) !! k) as [msg|] eqn:Hk; [|exact Hc].
    simpl. rewrite sum_list_with_app. simpl.
    pose proof (length_delete (in_flight (members c)) k (mk_is_Some _ _ Hk)) as Hd.
    pose proof (lookup_lt_Some _ _ _ Hk). lia.
Qed.

Lemma run_token mvs : token_held (run mvs).
Proof.
  unfold run. induction mvs as [|mv mvs IH] using rev_ind.
  - reflexivity.
  - rewrite foldl_app. apply sched_token, IH.
Qed.

(** C9. Single writer. Under every interleaving of calls of [deliver],
    statements of the threads and completions of writes, at most one
    [async_write] of the session is in flight. A thread that is about to
    start a write finds none in flight; and while [writing_] is [false]
    there is neither a write in flight nor a thread that may start one:
    the next write is started by the thread whose [exchange] returned
    [false]. *)
Theorem single_writer (mvs : list move) :
  (length (in_flight (members (run mvs))) <= 1)%nat /\
  (forall i msg,
      threads (run mvs) !! i = Some (do_write_async msg) ->
      in_flight (members (run mvs)) = []) /\
  (writing_ (members (run mvs)) = false ->
   in_flight (members (run mvs)) = [] /\
   forall i at_, threads (run mvs) !! i = Some at_ -> may_write at_ = 0%nat) /\
  (forall i j at_i at_j,
      threads (run mvs) !! i = Some at_i -> threads (run mvs) !! j = Some at_j ->
      may_write at_i = 1%nat -> may_write at_j = 1%nat -> i = j).
Proof.
  pose proof (run_token mvs) as Htok. unfold token_held, writers in Htok.
  set (c := run mvs) in *.
  assert (Hb : (Nat.b2n (writing_ (members c)) <= 1)%nat)
    by (destruct (writing_ (members c)); simpl; lia).
  split; [lia|]. split; [|split].
  - intros i msg Hi.
    pose proof (sum_list_with_lookup may_write _ i _ Hi) as Hle. simpl in Hle.
    destruct (in_flight (members c)); [reflexivity | simpl in Htok; lia].
  - intros Hw. rewrite Hw in Htok. simpl in Htok. split.
    + destruct (in_flight (members c)); [reflexivity | simpl in Htok; lia].
    + intros i at_ Hi.
      pose proof (sum_list_with_lookup may_write _ i _ Hi). lia.
  - intros i j at_i at_j Hi Hj Hmi Hmj.
    destruct (decide (i = j)) as [|Hne]; [assumption|exfalso].
    pose proof (sum_list_with_insert may_write _ i at_i returned Hi) as Hsum.
    assert (Hj' : <[i := returned]> (threads c) !! j = Some at_j)
      by (now rewrite list_lookup_insert_ne).
    pose proof (sum_list_with_lookup may_write _ j _ Hj') as Hle.
    simpl in Hsum. lia.
Qed.

Lemma single_writer_witness :
  in_flight (members (run (first_delivery (received "   0")))) = []
  /\ in_flight (members (run [])) = [].
Proof.
  split.
  - apply (proj1 (proj2 (single_writer (first_delivery (received "   0"))))
             0%nat (received "   0")).
    reflexivity.
  - apply (proj1 (proj2 (proj2 (single_writer []))) eq_refl).
Defined.

(** Two threads deliver at once: the second finds [writing_] set and only
    queues its message, here before the first has queued its own; the
    first starts the one write, of the message at the front. *)
Example two_deliveries :
  let c := run ([Call (received "   0"); Call (received "   1"); Step 0; Step 1]
                ++ replicate 4 (Step 1) ++ replicate 10 (Step 0)) in
  in_flight (members c) = [received "   1"] /\
  write_msgs_ (members c) = [received "   0"] /\
  writing_ (members c) = true /\
  threads c = [returned; returned].
Proof. vm_compute. repeat split. Qed.

(** One writer at most, not one writer at least. A thread that took
    [true] from the exchange has not queued its message yet when the
    handler of the last write finds the queue empty and clears [writing_]:
    the message then waits in the queue, with no write in flight and no
    thread left to start one, until [deliver] is called again. *)
Example queued_without_writer :
  let c := run (first_delivery (received "   0") ++ [Step 0; Complete 0 false]
                ++ [Call (received "   1"); Step 2]
                ++ replicate 5 (Step 1) ++ replicate 4 (Step 2)) in
  writing_ (members c) = false /\
  write_msgs_ (members c) = [received "   1"] /\
  in_flight (members c) = [] /\
  threads c = [returned; returned; returned].
Proof. vm_compute. repeat split. Qed.

(** A thread that runs [deliver] without interference does what
    [ChatSession.deliver] says: the same flag and queue, and the write
    the session's socket log gains is the write put in flight. *)
Lemma deliver_alone (sh : shared) (msg : Message) (s : ChatSession.t) :
  write_mutex_ sh = false ->
  ChatSession.writing_ s = writing_ sh ->
  ChatSession.write_msgs_ s = write_msgs_ sh ->
  let c := foldl sched (mkConfig sh [deliver_exchange msg]) (replicate 11 (Step 0)) in
  let s' := ChatSession.deliver msg s in
  writing_ (members c) = ChatSession.writing_ s' /\
  write_msgs_ (members c) = ChatSession.write_msgs_ s' /\
  ChatSession.socket_writes s ++ drop (length (in_flight sh)) (in_flight (members c))
  = ChatSession.socket_writes s' /\
  write_mutex_ (members c) = false /\
  threads c = [returned].
Proof.
  destruct sh as [w q mu fl], s as [rm sq sw log rd].
  cbn [write_mutex_ writing_ write_msgs_ in_flight ChatSession.writing_
       ChatSession.write_msgs_ ChatSession.socket_writes].
  intros -> -> ->. unfold ChatSession.deliver, ChatSession.do_write.
  cbn [ChatSession.writing_ ChatSession.write_msgs_ ChatSession.socket_writes
       ChatSession.read_msg_ ChatSession.reading].
  destruct w; [|destruct q as [|m q]].
  - replace (foldl sched _ _)
      with (mkConfig (mkShared true (q ++ [msg]) false fl) [returned])
      by (vm_compute; reflexivity).
    simpl. repeat split. rewrite drop_all. now rewrite app_nil_r.
  - replace (foldl sched _ _)
      with (mkConfig (mkShared true [] false (fl ++ [msg])) [returned])
      by (vm_compute; reflexivity).
    simpl. repeat split. now rewrite drop_app_length.
  - replace (foldl sched _ _)
      with (mkConfig (mkShared true (q ++ [msg]) false (fl ++ [m])) [returned])
      by (vm_compute; reflexivity).
    simpl. repeat split. now rewrite drop_app_length.
Qed.

(* ===================================================================== *)
(** * The write side: the mutex, the queue and the messages               *)
(* ===================================================================== *)

Import WriteLog.

Lemma sum_list_with_two {A} (f : A -> nat) (l : list A) i j x y :
  i <> j -> l !! i = Some x -> l !! j = Some y ->
  (f x + f y <= sum_list_with f l)%nat.
Proof.
  revert i j. induction l as [|z l IH]; intros i j Hne Hi Hj; [discriminate Hi|].
  destruct i as [|i], j as [|j]; simpl in *; try congruence.
  - injection Hi as ->. pose proof (sum_list_with_lookup f l j y Hj). lia.
  - injection Hj as ->. pose proof (sum_list_with_lookup f l i x Hi). lia.
  - assert (i <> j) by congruence. specialize (IH i j ltac:(assumption) Hi Hj). lia.
Qed.

(** A statement of a thread takes the mutex only when it is free and
    gives it back only when the thread holds it. *)
Lemma exec_section at_ sh sh' at' :
  exec at_ sh = Some (sh', at') ->
  (in_section at_ <= Nat.b2n (write_mutex_ sh))%nat ->
  (in_section at' + Nat.b2n (write_mutex_ sh)
   = in_section at_ + Nat.b2n (write_mutex_ sh'))%nat.
Proof.
  intros Hexec Hle.
  destruct at_; simpl in Hexec;
    try (unfold lock in Hexec; destruct (write_mutex_ sh) eqn:Hmu);
    try (destruct (write_msgs_ sh) eqn:Hq);
    try discriminate Hexec;
    injection Hexec as <- <-; simpl in *; rewrite ?Hmu in *; simpl in *;
    repeat match goal with
           | b : bool |- _ => destruct b; simpl in *
           | |- context [write_mutex_ ?x] => destruct (write_mutex_ x); simpl in *
           end; lia.
Qed.

Lemma exec_queue_ready at_ sh sh' at' :
  exec at_ sh = Some (sh', at') ->
  queue_ready (write_msgs_ sh) at_ ->
  queue_ready (write_msgs_ sh') at'.
Proof.
  intros Hexec Hq.
  destruct at_; simpl in Hexec;
    try (unfold lock in Hexec; destruct (write_mutex_ sh));
    try (destruct (write_msgs_ sh) as [|m q] eqn:E);
    try discriminate Hexec;
    injection Hexec as <- <-; simpl;
    repeat match goal with
           | b : bool |- _ => destruct b; simpl
           end;
    rewrite ?E; try exact I; try discriminate; eauto.
Qed.

Lemma exec_queue_kept at_ sh sh' at' :
  exec at_ sh = Some (sh', at') ->
  in_section at_ = 0%nat ->
  write_msgs_ sh' = write_msgs_ sh.
Proof.
  intros Hexec Hout.
  destruct at_; simpl in Hexec, Hout; try discriminate Hout;
    try (unfold lock in Hexec; destruct (write_mutex_ sh));
    try discriminate Hexec;
    injection Hexec as <- <-; reflexivity.
Qed.

Lemma queue_ready_outside q at_ : in_section at_ = 0%nat -> queue_ready q at_.
Proof. destruct at_; simpl; intros H; try exact I; discriminate H. Qed.

(** The mutex is locked exactly when one thread is inside a guarded block,
    and a thread before [front()] or [pop()] finds the queue as it needs it. *)
Lemma sched_section c mv :
  sum_list_with in_section (threads c) = Nat.b2n (write_mutex_ (members c)) ->
  Forall (queue_ready (write_msgs_ (members c))) (threads c) ->
  sum_list_with in_section (threads (sched c mv))
  = Nat.b2n (write_mutex_ (members (sched c mv))) /\
  Forall (queue_ready (write_msgs_ (members (sched c mv)))) (threads (sched c mv)).
Proof.
  intros Hm Hq. destruct mv as [msg|j|k ec]; simpl.
  - rewrite sum_list_with_app. simpl. split; [lia|].
    apply Forall_app. split; [exact Hq | repeat constructor].
  - destruct (threads c !! j) as [at_|] eqn:Hj; [|now split].
    destruct (exec at_ (members c)) as [[sh' at']|] eqn:Hexec; [|now split].
    simpl.
    pose proof (sum_list_with_insert in_section _ j at_ at' Hj) as Hsum.
    pose proof (sum_list_with_lookup in_section _ j at_ Hj) as Hle.
    assert (Hb : (Nat.b2n (write_mutex_ (members c)) <= 1)%nat)
      by (destruct (write_mutex_ (members c)); simpl; lia).
    pose proof (exec_section _ _ _ _ Hexec ltac:(lia)) as Hstep.
    split; [lia|].
    apply Forall_lookup. intros k x Hk.
    destruct (decide (k = j)) as [->|Hne].
    + rewrite list_lookup_insert_eq in Hk by (eapply lookup_lt_Some; eassumption).
      injection Hk as <-.
      eapply exec_queue_ready; [exact Hexec|].
      eapply Forall_lookup_1; eassumption.
    + rewrite list_lookup_insert_ne in Hk by congruence.
      destruct (in_section at_) eqn:Hin.
      * rewrite (exec_queue_kept _ _ _ _ Hexec Hin).
        eapply Forall_lookup_1; eassumption.
      * apply queue_ready_outside.
        pose proof (sum_list_with_two in_section _ k j x at_ Hne Hk Hj). lia.
  - destruct (in_flight (members c) !! k) as [msg|] eqn:Hk; [|now split].
    simpl. rewrite sum_list_with_app. simpl. split; [lia|].
    apply Forall_app. split; [exact Hq | repeat constructor].
Qed.

Lemma run_section mvs :
  sum_list_with in_section (threads (run mvs))
  = Nat.b2n (write_mutex_ (members (run mvs))) /\
  Forall (queue_ready (write_msgs_ (members (run mvs)))) (threads (run mvs)).
Proof.
  unfold run. induction mvs as [|mv mvs IH] using rev_ind.
  - split; [reflexivity | constructor].
  - rewrite foldl_app. simpl. destruct IH as [Hm Hq]. now apply sched_section.
Qed.

Lemma exec_carried at_ sh sh' at' :
  exec at_ sh = Some (sh', at') ->
  queue_ready (write_msgs_ sh) at_ ->
  carried at' ++ write_msgs_ sh' ++ in_flight sh'
  ≡ₚ carried at_ ++ write_msgs_ sh ++ in_flight sh.
Proof.
  intros Hexec Hq.
  destruct at_ as [msg|msg wip|msg wip|wip|wip| | | | | |msg|msg|msg|ec| | |];
    simpl in Hexec;
    try discriminate Hexec;
    try (unfold lock in Hexec; destruct (write_mutex_ sh); [discriminate Hexec|]);
    try (injection Hexec as <- <-; simpl; reflexivity).
  - (* push *)
    injection Hexec as <- <-. simpl.
    rewrite <- app_assoc. simpl. symmetry. apply Permutation_middle.
  - (* the test of [write_in_progress] *)
    injection Hexec as <- <-. now destruct wip.
  - (* the test of [empty()] *)
    injection Hexec as <- <-. now destruct (write_msgs_ sh).
  - (* front *)
    destruct (write_msgs_ sh) as [|m q] eqn:E; [discriminate Hexec|].
    injection Hexec as <- <-. simpl. now rewrite E.
  - (* pop *)
    injection Hexec as <- <-. simpl in Hq |- *.
    destruct Hq as (rest & ->). reflexivity.
  - (* async_write *)
    injection Hexec as <- <-. simpl.
    rewrite app_assoc. symmetry. apply Permutation_cons_append.
  - (* the test of [ec] *)
    injection Hexec as <- <-. now destruct ec.
Qed.

Lemma pending_step c j at_ sh' at' :
  threads c !! j = Some at_ ->
  exec at_ (members c) = Some (sh', at') ->
  queue_ready (write_msgs_ (members c)) at_ ->
  pending (mkConfig sh' (<[j := at']> (threads c))) ≡ₚ pending c.
Proof.
  intros Hj Hexec Hq. unfold pending. simpl.
  pose proof (lookup_lt_Some _ _ _ Hj) as Hlt.
  rewrite insert_take_drop by exact Hlt.
  rewrite <- (take_drop_middle (threads c) j at_ Hj) at 3.
  rewrite !fmap_app, !fmap_cons, !concat_app, !concat_cons.
  rewrite <- !app_assoc.
  apply Permutation_app_head.
  rewrite (app_assoc (carried at')), (app_assoc (carried at_)).
  rewrite (Permutation_app_comm (carried at')), (Permutation_app_comm (carried at_)).
  rewrite <- !app_assoc. apply Permutation_app_head.
  now apply exec_carried.
Qed.

Lemma run_log_config mvs : fst (foldl sched_log (initial, []) mvs) = run mvs.
Proof.
  unfold run. induction mvs as [|mv mvs IH] using rev_ind; [reflexivity|].
  rewrite !foldl_app. simpl. now rewrite IH.
Qed.

Lemma called_snoc mvs mv :
  called (mvs ++ [mv]) = called mvs ++ match mv with Call msg => [msg] | _ => [] end.
Proof.
  induction mvs as [|m mvs IH]; simpl.
  - destruct mv; reflexivity.
  - destruct m; rewrite IH; reflexivity.
Qed.

Lemma completed_snoc mvs mv :
  completed (mvs ++ [mv])
  = match mv with
    | Complete k _ =>
        match in_flight (members (run mvs)) !! k with
        | Some msg => completed mvs ++ [msg]
        | None => completed mvs
        end
    | _ => completed mvs
    end.
Proof.
  unfold completed. rewrite foldl_app. simpl. rewrite run_log_config.
  now destruct mv.
Qed.

(** X10. Mutual exclusion on [write_msgs_]. Under every interleaving at most
    one thread is inside a block guarded by [write_mutex_]; the mutex is
    locked exactly when there is one. *)
Theorem queue_mutual_exclusion (mvs : list move) :
  (forall i j at_i at_j,
      threads (run mvs) !! i = Some at_i -> threads (run mvs) !! j = Some at_j ->
      in_section at_i = 1%nat -> in_section at_j = 1%nat -> i = j) /\
  (write_mutex_ (members (run mvs)) = false ->
   forall i at_, threads (run mvs) !! i = Some at_ -> in_section at_ = 0%nat) /\
  (write_mutex_ (members (run mvs)) = true ->
   exists i at_, threads (run mvs) !! i = Some at_ /\ in_section at_ = 1%nat).
Proof.
  destruct (run_section mvs) as [Hm _]. set (c := run mvs) in *.
  assert (Hb : (Nat.b2n (write_mutex_ (members c)) <= 1)%nat)
    by (destruct (write_mutex_ (members c)); simpl; lia).
  split; [|split].
  - intros i j at_i at_j Hi Hj Hini Hinj.
    destruct (decide (i = j)) as [|Hne]; [assumption|exfalso].
    pose proof (sum_list_with_two in_section _ i j _ _ Hne Hi Hj). lia.
  - intros Hfree i at_ Hi. rewrite Hfree in Hm. simpl in Hm.
    pose proof (sum_list_with_lookup in_section _ i _ Hi). lia.
  - intros Hheld. rewrite Hheld in Hm. simpl in Hm.
    clear Hb Hheld. induction (threads c) as [|x ts IH]; [discriminate Hm|].
    simpl in Hm. destruct (in_section x) eqn:Hx.
    + destruct (IH Hm) as (i & at_ & Hi & Hin). now exists (S i), at_.
    + exists 0%nat, x. split; [reflexivity|].
      destruct x; simpl in *; congruence.
Qed.

(** X11. [front()] and [pop()] are never called on an empty queue. Under every
    interleaving a thread that stands before [front()] finds a first
    element and can take its step, and a thread that stands before
    [pop()] removes the message its [front()] returned. *)
Theorem front_and_pop_defined (mvs : list move) (i : nat) :
  (threads (run mvs) !! i = Some do_write_front ->
   exists msg rest,
     write_msgs_ (members (run mvs)) = msg :: rest /\
     exec do_write_front (members (run mvs)) = Some (members (run mvs), do_write_pop msg)) /\
  (forall msg,
     threads (run mvs) !! i = Some (do_write_pop msg) ->
     exists rest,
       write_msgs_ (members (run mvs)) = msg :: rest /\
       exists sh', exec (do_write_pop msg) (members (run mvs)) = Some (sh', do_write_unlock msg)
                   /\ write_msgs_ sh' = rest).
Proof.
  destruct (run_section mvs) as [_ Hq]. set (c := run mvs) in *.
  split.
  - intros Hi. pose proof (Forall_lookup_1 _ _ _ _ Hq Hi) as Hready. simpl in Hready.
    destruct (write_msgs_ (members c)) as [|msg rest] eqn:E; [congruence|].
    exists msg, rest. split; [reflexivity|]. simpl. now rewrite E.
  - intros msg Hi. pose proof (Forall_lookup_1 _ _ _ _ Hq Hi) as Hready.
    destruct Hready as (rest & Hrest). exists rest. split; [exact Hrest|].
    eexists. split; [reflexivity|]. simpl. now rewrite Hrest.
Qed.

(** X12. No message is lost and none is sent twice. Under every interleaving
    the messages passed to [deliver] are, each as often as it was passed,
    the messages whose write completed together with those still
    pending: carried by a thread, in the queue, or in flight. *)
Theorem messages_conserved (mvs : list move) :
  called mvs ≡ₚ completed mvs ++ pending (run mvs).
Proof.
  induction mvs as [|mv mvs IH] using rev_ind; [reflexivity|].
  rewrite called_snoc, completed_snoc.
  destruct (run_section mvs) as [_ Hq].
  unfold run in *. rewrite foldl_app. simpl foldl.
  set (c := foldl sched initial mvs) in *.
  destruct mv as [msg|j|k ec]; simpl.
  - rewrite IH. unfold pending. simpl.
    rewrite fmap_app, concat_app. simpl. rewrite <- !app_assoc.
    apply Permutation_app_head, Permutation_app_head. simpl.
    rewrite app_assoc. symmetry. apply Permutation_cons_append.
  - rewrite app_nil_r, IH. apply Permutation_app_head.
    destruct (threads c !! j) as [at_|] eqn:Hj; [|reflexivity].
    destruct (exec at_ (members c)) as [[sh' at']|] eqn:Hexec; [|reflexivity].
    symmetry. eapply pending_step; [exact Hj | exact Hexec |].
    eapply Forall_lookup_1; eassumption.
  - destruct (in_flight (members c) !! k) as [msg|] eqn:Hk.
    + rewrite app_nil_r, IH. unfold pending. simpl.
      rewrite fmap_app, concat_app. simpl. rewrite app_nil_r.
      rewrite (delete_Permutation _ _ _ Hk) at 1.
      rewrite <- !app_assoc. apply Permutation_app_head.
      rewrite (app_assoc [msg]). rewrite (Permutation_app_comm [msg]).
      rewrite <- !app_assoc. apply Permutation_app_head. simpl.
      symmetry. apply Permutation_middle.
    + now rewrite app_nil_r.
Qed.

(** X13. A message can be left in the queue with nobody to write it. For any
    two messages there is a schedule of two calls of [deliver] after which
    the first write has completed, the second message is in the queue,
    no write is in flight, [writing_] is [false] and every thread has
    returned: the second message waits for the next call of [deliver]. *)
Theorem message_left_without_writer (m0 m1 : Message) :
  called (stranding m0 m1) = [m0; m1] /\
  completed (stranding m0 m1) = [m0] /\
  write_msgs_ (members (run (stranding m0 m1))) = [m1] /\
  in_flight (members (run (stranding m0 m1))) = [] /\
  writing_ (members (run (stranding m0 m1))) = false /\
  write_mutex_ (members (run (stranding m0 m1))) = false /\
  threads (run (stranding m0 m1)) = [returned; returned; returned].
Proof. vm_compute. repeat split. Qed.

Lemma queue_mutual_exclusion_witness :
  in_section (deliver_exchange (received "   0")) = 0%nat /\
  exists i at_,
    threads (run [Call (received "   0"); Step 0; Step 0]) !! i = Some at_ /\
    in_section at_ = 1%nat.
Proof.
  split.
  - apply (proj1 (proj2 (queue_mutual_exclusion [Call (received "   0")])) eq_refl
             0%nat (deliver_exchange (received "   0"))).
    reflexivity.
  - apply (proj2 (proj2 (queue_mutual_exclusion
                           [Call (received "   0"); Step 0; Step 0]))).
    reflexivity.
Defined.

Lemma front_and_pop_defined_witness :
  (exists msg rest,
      write_msgs_ (members (run (Call (received "   0") :: replicate 7 (Step 0))))
      = msg :: rest /\
      exec do_write_front (members (run (Call (received "   0") :: replicate 7 (Step 0))))
      = Some (members (run (Call (received "   0") :: replicate 7 (Step 0))),
              do_write_pop msg)) /\
  (exists rest,
      write_msgs_ (members (run (Call (received "   0") :: replicate 8 (Step 0))))
      = received "   0" :: rest /\
      exists sh',
        exec (do_write_pop (received "   0"))
             (members (run (Call (received "   0") :: replicate 8 (Step 0))))
        = Some (sh', do_write_unlock (received "   0")) /\
        write_msgs_ sh' = rest).
Proof.
  split.
  - apply (proj1 (front_and_pop_defined
                    (Call (received "   0") :: replicate 7 (Step 0)) 0%nat)).
    reflexivity.
  - apply (proj2 (front_and_pop_defined
                    (Call (received "   0") :: replicate 8 (Step 0)) 0%nat)
             (received "   0")).
    reflexivity.
Defined.

(* ===================================================================== *)
(** * The codec beyond the bounds of the claims                           *)
(* ===================================================================== *)

Lemma utoa_length_lower fuel n k :
  10 ^ Z.of_nat k <= n -> (k < fuel)%nat -> (S k <= length (utoa fuel n []))%nat.
Proof.
  revert n k. induction fuel as [|fuel IH]; intros n k Hn Hk; [lia|].
  rewrite utoa_step.
  assert (Hp : 0 < 10 ^ Z.of_nat k) by (apply Z.pow_pos_nonneg; lia).
  destruct (Z.eqb_spec (n / 10) 0) as [Hz|Hz].
  - destruct k as [|k]; [simpl; lia|]. exfalso.
    rewrite Nat2Z.inj_succ, Z.pow_succ_r in Hn by lia.
    assert (0 < 10 ^ Z.of_nat k) by (apply Z.pow_pos_nonneg; lia).
    pose proof (Z.div_le_lower_bound n 10 1 ltac:(lia) ltac:(lia)). lia.
  - rewrite length_app. simpl. destruct k as [|k]; [lia|].
    rewrite Nat2Z.inj_succ, Z.pow_succ_r in Hn by lia.
    specialize (IH (n / 10) k).
    assert (10 ^ Z.of_nat k <= n / 10) by (apply Z.div_le_lower_bound; lia).
    lia.
Qed.

(** X1. [encode_header] and its five-byte buffer. For a [body_length] that
    [int] can hold, [sprintf] stays inside the local [header] exactly when
    the number has at most four digits: up to 9999 the header is written,
    from 10000 on the call overruns the buffer. *)
Theorem encode_header_buffer (m : Message) :
  0 <= body_length m < 2 ^ 31 ->
  (body_length m <= 9999 ->
   exists m', encode_header m = Some m' /\ header m' = format_4d (body_length m) /\
              length (header m') = 4%nat /\ body_length m' = body_length m /\
              drop 4 (data m') = drop 4 (data m)) /\
  (9999 < body_length m -> encode_header m = None).
Proof.
  intros Hn. split.
  - intros Hle. destruct (format_4d_shape (body_length m) ltac:(lia)) as [_ Hlen].
    eexists. split; [apply encode_header_ok; lia|].
    unfold header. simpl data. change (Z.to_nat HEADER_SIZE) with 4%nat.
    rewrite take_app_length' by (now rewrite Hlen).
    rewrite drop_app_length' by (now rewrite Hlen).
    repeat split. exact Hlen.
  - intros Hgt. unfold encode_header, sprintf_4d.
    rewrite static_cast_int_small by lia.
    pose proof (utoa_length_lower 10 (body_length m) 4 ltac:(simpl; lia) ltac:(lia)) as Hlow.
    assert (Hlen : (5 <= length (format_4d (body_length m)))%nat).
    { unfold format_4d. rewrite itoa_nonneg by lia. rewrite length_app. lia. }
    rewrite length_app. simpl length.
    change (Z.to_nat (HEADER_SIZE + 1)) with 5%nat.
    destruct (Nat.leb_spec (length (format_4d (body_length m)) + 1) 5); [lia | reflexivity].
Qed.

Lemma encode_header_buffer_witness :
  (exists m', encode_header (mkMessage junk 9999) = Some m' /\
              header m' = format_4d 9999 /\
              length (header m') = 4%nat /\ body_length m' = 9999 /\
              drop 4 (data m') = drop 4 junk) /\
  encode_header (mkMessage junk 10000) = None.
Proof.
  split.
  - apply (proj1 (encode_header_buffer (mkMessage junk 9999) ltac:(simpl; lia))).
    simpl. lia.
  - apply (proj2 (encode_header_buffer (mkMessage junk 10000) ltac:(simpl; lia))).
    simpl. lia.
Defined.

Section CodecMore.

Variable size_bits : Z.
Hypothesis size_bits_min : 16 <= size_bits.

(** X2. The sender cuts, it does not reject. Whatever the length of the text,
    the message built from it carries its first 512 bytes and declares
    their number; the receiver's [decode_header] accepts the header, and
    the frame has [HEADER_SIZE] bytes more than the body. *)
Theorem sender_truncates (fresh line : list ascii) :
  length fresh = DATA_SIZE ->
  exists m,
    make_message fresh line = Some m /\
    body_bytes m = take 512 line /\
    body_length m = Z.min (Z.of_nat (length line)) MAX_BODY_SIZE /\
    frame m = header m ++ take 512 line /\
    decode_header size_bits m = (true, m).
Proof.
  intros Hf.
  destruct (make_message_body fresh line Hf) as (m & Hmk & Hlen & Hh & Hb & Hfr).
  exists m. split; [exact Hmk|]. split; [exact Hb|].
  assert (Hn : body_length m = Z.min (Z.of_nat (length line)) MAX_BODY_SIZE).
  { rewrite Hlen, length_take. unfold MAX_BODY_SIZE. lia. }
  split; [exact Hn|]. split; [exact Hfr|].
  rewrite (decode_header_format size_bits size_bits_min m (body_length m))
    by (try exact Hh; unfold MAX_BODY_SIZE in Hn; lia).
  unfold MAX_BODY_SIZE in *.
  destruct (Z.leb_spec (body_length m) 512); [now destruct m | lia].
Qed.

Lemma c_str_app s t :
  Forall (fun c => Ascii.eqb c NUL = false) s -> c_str (s ++ t) = s ++ c_str t.
Proof.
  induction 1 as [|c s Hc _ IH]; simpl; [reflexivity|]. rewrite Hc. now f_equal.
Qed.

Lemma parse_digits_stop a s :
  match s with [] => True | c :: _ => isdigit c = false end -> parse_digits a s = a.
Proof. destruct s as [|c s]; simpl; [reflexivity|]. now intros ->. Qed.

(** X3. [atoi] stops at the first character that is no digit. A header that
    starts with white space and digits and goes on with anything else,
    a NUL included, declares the number of those digits: "12ab" is a
    header of length 12. *)
Theorem decode_header_reads_prefix (m : Message) (pad ds rest : list ascii) (c : ascii) :
  header m = pad ++ ds ++ c :: rest ->
  Forall (fun c => isspace c = true) pad ->
  Forall (fun c => isdigit c = true) ds ->
  ds <> [] ->
  isdigit c = false ->
  decode_header size_bits m
  = (decimal_value ds <=? MAX_BODY_SIZE, mkMessage (data m) (decimal_value ds)).
Proof.
  intros Hh Hpad Hds Hne Hc. rewrite decode_header_eq, header_string_eq, Hh.
  assert (Hlen : (length ds <= 4)%nat).
  { assert (Hl : length (header m) = length (pad ++ ds ++ c :: rest)) by now rewrite Hh.
    unfold header in Hl. rewrite length_take, !length_app in Hl.
    change (Z.to_nat HEADER_SIZE) with 4%nat in Hl. lia. }
  rewrite c_str_app
    by (eapply Forall_impl; [exact Hpad | apply isspace_not_NUL]).
  rewrite c_str_app
    by (eapply Forall_impl; [exact Hds | intros x Hx; apply (isdigit_not_special x Hx)]).
  assert (Hatoi : atoi (pad ++ ds ++ c_str (c :: rest)) = decimal_value ds).
  { unfold atoi. rewrite skip_spaces_pad by exact Hpad.
    destruct Hds as [|d ds Hd Hds]; [congruence|].
    change ((d :: ds) ++ c_str (c :: rest)) with (d :: (ds ++ c_str (c :: rest))).
    rewrite skip_spaces_digit by exact Hd.
    destruct (isdigit_not_special d Hd) as (-> & -> & _).
    change (d :: ds ++ c_str (c :: rest)) with ((d :: ds) ++ c_str (c :: rest)).
    rewrite parse_digits_app by (now constructor).
    apply parse_digits_stop. simpl. destruct (Ascii.eqb c NUL); [exact I | exact Hc]. }
  rewrite Hatoi.
  rewrite (size_t_of_int_small size_bits size_bits_min)
    by (apply decimal_value_bound; assumption).
  reflexivity.
Qed.

(** X4. When [decode_header] accepts. It returns [true] exactly when the
    number [atoi] reads in the header is within 0..512, and then
    [body_length] is that number; the array is never changed, and a
    second [decode_header] gives the same result as the first. *)
Theorem decode_header_accepts (m : Message) :
  (fst (decode_header size_bits m) = true <-> 0 <= atoi (header_string m) <= MAX_BODY_SIZE) /\
  (fst (decode_header size_bits m) = true ->
   body_length (snd (decode_header size_bits m)) = atoi (header_string m)) /\
  data (snd (decode_header size_bits m)) = data m /\
  decode_header size_bits (snd (decode_header size_bits m)) = decode_header size_bits m.
Proof.
  pose proof (size_t_bound size_bits size_bits_min) as Hw.
  pose proof (atoi_header_range _ (header_string_length m)) as Hr.
  rewrite decode_header_eq. simpl fst. simpl snd. simpl body_length. simpl data.
  unfold MAX_BODY_SIZE.
  assert (Hcases : (0 <= atoi (header_string m) /\
                    size_t_of_int size_bits (atoi (header_string m)) = atoi (header_string m))
                   \/ (atoi (header_string m) < 0 /\
                       size_t_of_int size_bits (atoi (header_string m))
                       = 2 ^ size_bits + atoi (header_string m))).
  { destruct (Z.lt_ge_cases (atoi (header_string m)) 0).
    - right. split; [assumption|].
      apply (size_t_of_int_negative size_bits size_bits_min). lia.
    - left. split; [assumption|].
      apply (size_t_of_int_small size_bits size_bits_min). lia. }
  split; [|split; [|split]].
  - rewrite Z.leb_le. destruct Hcases as [[? ->]|[? ->]]; lia.
  - rewrite Z.leb_le. destruct Hcases as [[? ->]|[? ->]]; lia.
  - reflexivity.
  - reflexivity.
Qed.

End CodecMore.

Lemma sender_truncates_witness :
  exists m,
    make_message junk (repeat "a"%char 600) = Some m /\
    body_bytes m = take 512 (repeat "a"%char 600) /\
    body_length m = Z.min (Z.of_nat (length (repeat "a"%char 600))) MAX_BODY_SIZE /\
    frame m = header m ++ take 512 (repeat "a"%char 600) /\
    decode_header 64 m = (true, m).
Proof. apply (sender_truncates 64 ltac:(lia) junk (repeat "a"%char 600)). reflexivity. Defined.

Lemma decode_header_reads_prefix_witness :
  decode_header 64 (received "12ab")
  = (decimal_value (chars "12") <=? MAX_BODY_SIZE,
     mkMessage (data (received "12ab")) (decimal_value (chars "12"))).
Proof.
  apply (decode_header_reads_prefix 64 ltac:(lia) (received "12ab")
           [] (chars "12") (chars "b") "a"%char).
  - reflexivity.
  - constructor.
  - repeat constructor.
  - discriminate.
  - reflexivity.
Defined.

Lemma decode_header_accepts_witness :
  body_length (snd (decode_header 64 (received " 300"))) = atoi (header_string (received " 300")).
Proof.
  apply (proj1 (proj2 (decode_header_accepts 64 ltac:(lia) (received " 300")))).
  reflexivity.
Defined.

(* ===================================================================== *)
(** * The room beyond the claims                                          *)
(* ===================================================================== *)








(* ===================================================================== *)
(** * The client                                                          *)
(* ===================================================================== *)

Lemma make_message_frame fresh line :
  length fresh = DATA_SIZE ->
  exists m, make_message fresh line = Some m /\ frame m = ChatClient.wire_frame line.
Proof.
  intros Hf. destruct (make_message_body fresh line Hf) as (m & Hmk & Hlen & Hh & _ & Hfr).
  exists m. split; [exact Hmk|]. unfold ChatClient.wire_frame. now rewrite Hfr, Hh, Hlen.
Qed.

Lemma client_outbound_do_write c :
  ChatClient.outbound (ChatClient.do_write c) = ChatClient.outbound c.
Proof.
  unfold ChatClient.do_write, ChatClient.outbound.
  destruct (ChatClient.write_msgs_ c) as [|msg rest] eqn:E; simpl.
  - now rewrite E.
  - now rewrite <- app_assoc.
Qed.

Lemma client_outbound_write msg c :
  ChatClient.connected_ c = true ->
  ChatClient.outbound (ChatClient.write msg c) = ChatClient.outbound c ++ [msg] /\
  ChatClient.connected_ (ChatClient.write msg c) = true.
Proof.
  intros Hc. unfold ChatClient.write. rewrite Hc. simpl negb. cbv iota.
  destruct (ChatClient.writing_ c); simpl negb; cbv iota.
  - unfold ChatClient.outbound. simpl. split; [now rewrite app_assoc | reflexivity].
  - rewrite client_outbound_do_write. unfold ChatClient.outbound, ChatClient.do_write. simpl.
    split; [now rewrite app_assoc|].
    now destruct (ChatClient.write_msgs_ c ++ [msg]).
Qed.

(** One event after which the loop goes on: the connection stays up, and
    what the client has taken for the server grows by the frame of the
    line, if the event is a line that is not empty. What the socket was
    handed only grows; on a client with no write in progress and nothing
    queued, a line that is not empty is handed to the socket by the
    event itself. *)
Lemma client_event_goes_on size_bits ev c :
  ChatClient.connected_ c = true ->
  ChatClient.goes_on size_bits ev = true ->
  exists c',
    ChatClient.connected_ c' = true /\
    frame <$> ChatClient.outbound c'
    = (frame <$> ChatClient.outbound c)
      ++ (ChatClient.wire_frame <$> filter (fun l => l <> []) (ChatClient.lines_of [ev])) /\
    (forall rest, ChatClient.main_loop size_bits (ev :: rest) c
                  = ChatClient.main_loop size_bits rest c') /\
    (exists more, ChatClient.socket_writes c' = ChatClient.socket_writes c ++ more) /\
    (ChatClient.writing_ c = false ->
     ChatClient.write_msgs_ c = [] ->
     match filter (fun l => l <> []) (ChatClient.lines_of [ev]) with
     | [] => ChatClient.writing_ c' = false /\
             ChatClient.write_msgs_ c' = [] /\
             ChatClient.socket_writes c' = ChatClient.socket_writes c
     | l :: _ => exists m, frame m = ChatClient.wire_frame l /\
                           ChatClient.socket_writes c' = ChatClient.socket_writes c ++ [m]
     end).
Proof.
  intros Hc Hev.
  destruct ev as [line fresh|ec bytes|ec bytes|ec]; cbn [ChatClient.goes_on] in Hev.
  - apply andb_true_iff in Hev. destruct Hev as [Hq Hf].
    apply negb_true_iff in Hq. apply Nat.eqb_eq in Hf.
    unfold ChatClient.says_quit in Hq.
    assert (Hstep : forall c1, ChatClient.input_line line fresh c = Some (true, c1) ->
                     forall rest, ChatClient.main_loop size_bits
                                    (ChatClient.Line line fresh :: rest) c
                                  = ChatClient.main_loop size_bits rest c1).
    { intros c1 H1 rest. simpl. now rewrite H1. }
    unfold ChatClient.input_line, ChatClient.is_connected in Hstep.
    rewrite Hc, Hq in Hstep. simpl in Hstep.
    destruct line as [|a line].
    + exists c. split; [exact Hc|]. split; [|split; [now apply Hstep|]].
      * simpl. now rewrite app_nil_r.
      * split; [exists []; now rewrite app_nil_r|].
        intros Hw Hqu. simpl. now repeat split.
    + destruct (make_message_frame fresh (a :: line) Hf) as (m & Hmk & Hfr).
      rewrite Hmk in Hstep.
      destruct (client_outbound_write m c Hc) as [Ho Hc'].
      exists (ChatClient.write m c). split; [exact Hc'|].
      split; [|split; [now apply Hstep|]].
      * rewrite Ho, fmap_app. simpl ChatClient.lines_of.
        rewrite filter_cons_True by discriminate. simpl. now rewrite Hfr.
      * split.
        -- unfold ChatClient.write. rewrite Hc. simpl negb. cbv iota.
           destruct (ChatClient.writing_ c); simpl negb; cbv iota.
           ++ exists []. simpl. now rewrite app_nil_r.
           ++ unfold ChatClient.do_write. cbn [ChatClient.write_msgs_].
              destruct (ChatClient.write_msgs_ c ++ [m]) as [|m0 rest0].
              ** exists []. simpl. now rewrite app_nil_r.
              ** exists [m0]. reflexivity.
        -- intros Hw Hqu. simpl ChatClient.lines_of.
           rewrite filter_cons_True by discriminate.
           exists m. split; [exact Hfr|].
           unfold ChatClient.write. rewrite Hc, Hw. simpl negb. cbv iota.
           unfold ChatClient.do_write. cbn [ChatClient.write_msgs_]. rewrite Hqu.
           reflexivity.
  - apply andb_true_iff in Hev. destruct Hev as [Hev Hok].
    apply andb_true_iff in Hev. destruct Hev as [Hec Hb].
    apply negb_true_iff in Hec. apply Nat.eqb_eq in Hb. subst ec.
    exists (ChatClient.header_handler size_bits false bytes c).
    assert (Heq : exists rm1 rm2,
               ChatClient.header_handler size_bits false bytes c
               = ChatClient.do_read_body
                   (ChatClient.set_read rm2 ChatSession.no_read
                      (ChatClient.set_read rm1 ChatSession.no_read c))).
    { pose proof (decode_after_read size_bits (data (ChatClient.read_msg_ c)) bytes
                    (body_length (ChatClient.read_msg_ c)) Hb) as Hd.
      rewrite Hok in Hd. unfold ChatClient.header_handler. cbv zeta.
      destruct (decode_header size_bits
                  (mkMessage (memcpy (data (ChatClient.read_msg_ c)) bytes (length bytes))
                             (body_length (ChatClient.read_msg_ c)))) as [ok rm2].
      simpl in Hd. subst ok. eexists. eexists. reflexivity. }
    destruct Heq as (rm1 & rm2 & Heq).
    split; [|split; [|split; [reflexivity|]]]; rewrite Heq.
    + exact Hc.
    + simpl. now rewrite app_nil_r.
    + split; [exists []; simpl; now rewrite app_nil_r|].
      intros Hw Hqu. simpl. now repeat split.
  - apply negb_true_iff in Hev. subst ec.
    exists (ChatClient.body_handler false bytes c).
    split; [exact Hc|]. split; [|split; [reflexivity|]].
    + simpl. now rewrite app_nil_r.
    + split; [exists []; simpl; now rewrite app_nil_r|].
      intros Hw Hqu. simpl. now repeat split.
  - apply negb_true_iff in Hev. subst ec.
    exists (ChatClient.write_handler false c). simpl.
    split; [|split; [|split; [reflexivity|]]].
    + unfold ChatClient.do_write. now destruct (ChatClient.write_msgs_ c).
    + now rewrite client_outbound_do_write, app_nil_r.
    + split.
      * unfold ChatClient.do_write. destruct (ChatClient.write_msgs_ c) as [|m0 rest0].
        -- exists []. simpl. now rewrite app_nil_r.
        -- exists [m0]. reflexivity.
      * intros Hw Hqu. unfold ChatClient.do_write. rewrite Hqu. simpl. now repeat split.
Qed.

Lemma lines_of_cons ev evs :
  ChatClient.lines_of (ev :: evs) = ChatClient.lines_of [ev] ++ ChatClient.lines_of evs.
Proof. now destruct ev. Qed.

(** X14. What the client takes for the server. While the connection is up
    and neither "quit" nor "exit" is typed, every line that is not empty
    becomes one frame, the length of its first 512 bytes in a field of
    four and then those bytes, and the frames are appended in the order
    typed to the messages the client has handed to [async_write] or
    holds in [write_msgs_]. An empty line adds nothing. What was handed
    to [async_write] only grows, from the front of that sequence. On a
    client with no write in progress and nothing queued, the first line
    that is not empty is handed to [async_write], not only queued. When
    the input ends the loop is left and [close()] runs. Whether a frame
    that is still in [write_msgs_] then is ever written is not stated. *)
Theorem client_queues_lines (size_bits : Z) (evs : list ChatClient.event) (c : ChatClient.t) :
  ChatClient.connected_ c = true ->
  forallb (ChatClient.goes_on size_bits) evs = true ->
  exists c',
    ChatClient.main_loop size_bits evs c = Some c' /\
    (frame <$> ChatClient.socket_writes c') ++ (frame <$> ChatClient.write_msgs_ c')
    = (frame <$> ChatClient.socket_writes c) ++ (frame <$> ChatClient.write_msgs_ c)
      ++ (ChatClient.wire_frame <$> filter (fun l => l <> []) (ChatClient.lines_of evs)) /\
    (exists more, ChatClient.socket_writes c' = ChatClient.socket_writes c ++ more) /\
    (ChatClient.writing_ c = false ->
     ChatClient.write_msgs_ c = [] ->
     forall l ls,
       filter (fun l => l <> []) (ChatClient.lines_of evs) = l :: ls ->
       exists more,
         frame <$> ChatClient.socket_writes c'
         = (frame <$> ChatClient.socket_writes c) ++ ChatClient.wire_frame l :: more) /\
    ChatClient.connected_ c' = false /\
    ChatClient.close_posted c' = true.
Proof.
  revert c. induction evs as [|ev evs IH]; intros c Hc Hall.
  - exists (ChatClient.close c). simpl. rewrite app_nil_r.
    split; [reflexivity|]. split; [reflexivity|].
    split; [exists []; now rewrite app_nil_r|].
    split; [intros _ _ l ls Hl; discriminate Hl|]. now split.
  - simpl in Hall. apply andb_true_iff in Hall. destruct Hall as [Hev Hall].
    destruct (client_event_goes_on size_bits ev c Hc Hev)
      as (c1 & Hc1 & Ho1 & Hstep & [more1 Hg1] & Hidle1).
    destruct (IH c1 Hc1 Hall) as (c' & Hrun & Ho & [more Hg] & Hidle & Hconn & Hclose).
    exists c'. rewrite Hstep. split; [exact Hrun|].
    unfold ChatClient.outbound in Ho1. rewrite !fmap_app in Ho1.
    split; [|split; [|split; [|now split]]].
    + rewrite (lines_of_cons ev evs), filter_app, fmap_app, Ho.
      rewrite (app_assoc (frame <$> ChatClient.socket_writes c1)), Ho1, <- !app_assoc.
      reflexivity.
    + exists (more1 ++ more). now rewrite Hg, Hg1, app_assoc.
    + intros Hw Hqu l ls Hl. specialize (Hidle1 Hw Hqu).
      rewrite (lines_of_cons ev evs), filter_app in Hl.
      destruct (filter (fun l0 => l0 <> []) (ChatClient.lines_of [ev])) as [|l0 t].
      * destruct Hidle1 as (Hw1 & Hq1 & Hs1). simpl in Hl.
        destruct (Hidle Hw1 Hq1 l ls Hl) as [more' Hm]. exists more'. now rewrite Hm, Hs1.
      * destruct Hidle1 as (m & Hfr & Hs1). simpl in Hl. injection Hl as -> _.
        exists (frame <$> more). rewrite Hg, Hs1, !fmap_app. simpl.
        rewrite Hfr, <- app_assoc. reflexivity.
Qed.

(** Two lines typed with no write completed in between: the first is
    handed to the socket, the second is still in the queue when [close()]
    has run. *)
Example queued_line_at_close :
  exists c',
    ChatClient.main_loop 64
      [ChatClient.Line (chars "hi") junk; ChatClient.Line (chars "yo") junk]
      (ChatClient.connect_handler None (ChatClient.fresh junk)) = Some c' /\
    frame <$> ChatClient.socket_writes c' = [ChatClient.wire_frame (chars "hi")] /\
    frame <$> ChatClient.write_msgs_ c' = [ChatClient.wire_frame (chars "yo")] /\
    ChatClient.close_posted c' = true.
Proof. eexists. split; [vm_compute; reflexivity|]. vm_compute. now repeat split. Qed.





(** A message is in the queue when the connection is lost, and the write
    before it completes afterwards: the message is handed to the socket. *)
Example disconnected_client_still_writes :
  let c := ChatClient.mk (mkMessage junk 0) [received "   0"] false true []
                         true false ChatSession.no_read [] [] in
  ChatClient.connected_ c = false /\
  exists c',
    ChatClient.main_loop 64 [ChatClient.Written false] c = Some c' /\
    ChatClient.socket_writes c' = [received "   0"] /\
    ChatClient.write_msgs_ c' = [].
Proof. cbv zeta. split; [reflexivity|]. eexists. split; [reflexivity|]. now split. Qed.

(** X16. "quit" and "exit" end the loop. The word is not sent, and nothing
    that follows it is read: the outcome is the same whatever comes after. *)
Theorem quit_ends_loop (size_bits : Z) (evs rest : list ChatClient.event)
    (line fresh : list ascii) (c : ChatClient.t) :
  ChatClient.says_quit line = true ->
  ChatClient.main_loop size_bits (evs ++ ChatClient.Line line fresh :: rest) c
  = ChatClient.main_loop size_bits (evs ++ [ChatClient.Line line fresh]) c /\
  (ChatClient.connected_ c = true ->
   ChatClient.main_loop size_bits (ChatClient.Line line fresh :: rest) c
   = Some (ChatClient.close c)).
Proof.
  intros Hq. unfold ChatClient.says_quit in Hq. split.
  - revert c. induction evs as [|ev evs IH]; intros c.
    + simpl. unfold ChatClient.input_line. rewrite Hq.
      now destruct (negb (ChatClient.is_connected c)).
    + destruct ev as [l f|ec bytes|ec bytes|ec]; simpl; try apply IH.
      destruct (ChatClient.input_line l f c) as [[[|] c1]|]; [apply IH | reflexivity..].
  - intros Hc. simpl. unfold ChatClient.input_line, ChatClient.is_connected.
    now rewrite Hc, Hq.
Qed.

(** The client reads one frame: a header as [encode_header] writes it,
    then the body it declares. *)
Lemma client_reads_frame size_bits (c : ChatClient.t) (n : Z) (body : list ascii) :
  16 <= size_bits ->
  length (data (ChatClient.read_msg_ c)) = DATA_SIZE ->
  0 <= n <= 512 ->
  Z.of_nat (length body) = n ->
  ChatClient.cout
    (ChatClient.body_handler false body
       (ChatClient.header_handler size_bits false (format_4d n) c))
  = ChatClient.cout c ++ body ++ [ChatClient.NL] /\
  ChatClient.reading
    (ChatClient.body_handler false body
       (ChatClient.header_handler size_bits false (format_4d n) c))
  = ChatSession.read_header /\
  ChatClient.connected_
    (ChatClient.body_handler false body
       (ChatClient.header_handler size_bits false (format_4d n) c))
  = ChatClient.connected_ c.
Proof.
  intros Hw Hd Hn Hb. pose proof Hd as Hd'. change DATA_SIZE with 516%nat in Hd'.
  destruct (format_4d_shape n ltac:(lia)) as [_ Hlen].
  set (rm := ChatClient.read_msg_ c) in *.
  set (rm1 := mkMessage (memcpy (data rm) (format_4d n) (length (format_4d n)))
                        (body_length rm)).
  assert (Hdec : decode_header size_bits rm1 = (true, mkMessage (data rm1) n)).
  { rewrite (decode_header_format size_bits Hw rm1 n) by
      (try lia; unfold rm1, header, memcpy; simpl data;
       change (Z.to_nat HEADER_SIZE) with 4%nat;
       rewrite (take_ge (format_4d n)) by lia;
       apply take_app_length'; now rewrite Hlen).
    unfold MAX_BODY_SIZE. destruct (Z.leb_spec n 512); [reflexivity | lia]. }
  assert (Hd1 : length (data rm1) = DATA_SIZE).
  { unfold rm1, memcpy. simpl data. rewrite length_app, length_take, length_drop.
    change DATA_SIZE with 516%nat. lia. }
  unfold ChatClient.header_handler. cbv zeta. fold rm. fold rm1. rewrite Hdec.
  unfold ChatClient.body_handler. cbv zeta.
  cbn [ChatClient.do_read_body ChatClient.do_read_header ChatClient.set_read
       ChatClient.read_msg_ ChatClient.print ChatClient.cout ChatClient.reading
       ChatClient.connected_ body_length data].
  pose proof (read_body_bytes (mkMessage (data rm1) n) body Hd1 Hb) as Hbb.
  cbn [data body_length] in Hbb. rewrite Hbb.
  repeat split.
Qed.

(** X17. What the client prints. When the client has read a frame that a
    sender built from a text, it prints the first 512 bytes of that text
    and a newline, and waits for the next header. *)
Theorem client_prints_frame (size_bits : Z) (c : ChatClient.t) (fresh text : list ascii) :
  16 <= size_bits ->
  length (data (ChatClient.read_msg_ c)) = DATA_SIZE ->
  length fresh = DATA_SIZE ->
  exists m,
    make_message fresh text = Some m /\
    ChatClient.cout
      (ChatClient.body_handler false (drop 4 (frame m))
         (ChatClient.header_handler size_bits false (take 4 (frame m)) c))
    = ChatClient.cout c ++ take 512 text ++ [ChatClient.NL] /\
    ChatClient.reading
      (ChatClient.body_handler false (drop 4 (frame m))
         (ChatClient.header_handler size_bits false (take 4 (frame m)) c))
    = ChatSession.read_header.
Proof.
  intros Hw Hd Hf.
  destruct (make_message_body fresh text Hf) as (m & Hmk & Hlen & Hh & _ & Hfr).
  exists m. split; [exact Hmk|].
  assert (Hn : 0 <= body_length m <= 512) by (rewrite Hlen, length_take; lia).
  destruct (format_4d_shape (body_length m) ltac:(lia)) as [_ H4].
  rewrite Hfr, Hh.
  rewrite take_app_length' by (now rewrite H4).
  rewrite drop_app_length' by (now rewrite H4).
  destruct (client_reads_frame size_bits c (body_length m) (take 512 text) Hw Hd Hn
              ltac:(now rewrite Hlen)) as (Hcout & Hrd & _).
  split; [exact Hcout | exact Hrd].
Qed.

Lemma client_prints_frame_witness :
  exists m,
    make_message junk (chars "hello") = Some m /\
    ChatClient.cout
      (ChatClient.body_handler false (drop 4 (frame m))
         (ChatClient.header_handler 64 false (take 4 (frame m)) (ChatClient.fresh junk)))
    = ChatClient.cout (ChatClient.fresh junk) ++ take 512 (chars "hello") ++ [ChatClient.NL] /\
    ChatClient.reading
      (ChatClient.body_handler false (drop 4 (frame m))
         (ChatClient.header_handler 64 false (take 4 (frame m)) (ChatClient.fresh junk)))
    = ChatSession.read_header.
Proof.
  apply (client_prints_frame 64 (ChatClient.fresh junk) junk (chars "hello")).
  - lia.
  - reflexivity.
  - reflexivity.
Defined.

(* ===================================================================== *)
(** * From one client through the server to another                       *)
(* ===================================================================== *)




Lemma client_queues_lines_witness :
  exists c',
    ChatClient.main_loop 64
      [ChatClient.Line (chars "hi") junk; ChatClient.Line [] junk;
       ChatClient.Written false; ChatClient.Line (chars "yo") junk]
      (ChatClient.connect_handler None (ChatClient.fresh junk)) = Some c' /\
    (frame <$> ChatClient.socket_writes c') ++ (frame <$> ChatClient.write_msgs_ c')
    = (frame <$> ChatClient.socket_writes
                   (ChatClient.connect_handler None (ChatClient.fresh junk)))
      ++ (frame <$> ChatClient.write_msgs_
                      (ChatClient.connect_handler None (ChatClient.fresh junk)))
      ++ (ChatClient.wire_frame
            <$> filter (fun l => l <> [])
                  (ChatClient.lines_of
                     [ChatClient.Line (chars "hi") junk; ChatClient.Line [] junk;
                      ChatClient.Written false; ChatClient.Line (chars "yo") junk])) /\
    (exists more,
        frame <$> ChatClient.socket_writes c'
        = (frame <$> ChatClient.socket_writes
                       (ChatClient.connect_handler None (ChatClient.fresh junk)))
          ++ ChatClient.wire_frame (chars "hi") :: more) /\
    ChatClient.connected_ c' = false /\
    ChatClient.close_posted c' = true.
Proof.
  destruct (client_queues_lines 64
              [ChatClient.Line (chars "hi") junk; ChatClient.Line [] junk;
               ChatClient.Written false; ChatClient.Line (chars "yo") junk]
              (ChatClient.connect_handler None (ChatClient.fresh junk))
              eq_refl eq_refl) as (c' & Hrun & Hout & _ & Hfirst & Hconn & Hclose).
  exists c'. split; [exact Hrun|]. split; [exact Hout|].
  split; [|split; [exact Hconn | exact Hclose]].
  apply (Hfirst eq_refl eq_refl (chars "hi") [chars "yo"]).
  vm_compute. reflexivity.
Defined.


Lemma quit_ends_loop_witness :
  ChatClient.main_loop 64
    ([ChatClient.Line (chars "hi") junk]
     ++ ChatClient.Line (chars "quit") junk :: [ChatClient.Line (chars "late") junk])
    (ChatClient.connect_handler None (ChatClient.fresh junk))
  = ChatClient.main_loop 64
      ([ChatClient.Line (chars "hi") junk] ++ [ChatClient.Line (chars "quit") junk])
      (ChatClient.connect_handler None (ChatClient.fresh junk)).
Proof.
  apply (proj1 (quit_ends_loop 64 [ChatClient.Line (chars "hi") junk]
                  [ChatClient.Line (chars "late") junk] (chars "quit") junk
                  (ChatClient.connect_handler None (ChatClient.fresh junk)) eq_refl)).
Defined.


(** The line "hello", typed at one client, as another client prints it. *)
Example hello_printed :
  option_map
    (fun r =>
       match last (ChatRoom.recent_messages_ r) with
       | Some response =>
           ChatClient.cout
             (ChatClient.body_handler false (drop 4 (frame response))
                (ChatClient.header_handler 64 false (take 4 (frame response))
                   (ChatClient.fresh junk)))
       | None => []
       end)
    (ChatSession.body_handler 5 false (chars "hello")
       (chars "Tue Nov  3 05:14:00 2026" ++ ["010"%char]) junk
       (ChatSession.header_handler 64 5 false (chars "   5") room_awaiting_body))
  = Some (chars "[Tue Nov  3 05:14:00 2026] Client: hello" ++ [ChatClient.NL]).
Proof. vm_compute. reflexivity. Qed.
